(** * Fern WiFi Cracker: the tool-integration core, embedded and verified

    A shallow embedding of the Python modules under [core/]
    ([crunch_integration.py], [cowpatty_integration.py],
    [wifite_integration.py], [mdk_integration.py],
    [macchanger_integration.py], [aircrack_tools.py],
    [kali_dependency_manager.py]) and theorems about job ids, job status,
    progress parsing, registry clean-up, start/stop error paths, the
    availability probes, command construction, the word-list size estimate
    and the vendor MAC spoof.

    Conventions of the embedding.
    - Python [str] is [string]; every character is an ASCII byte, so a
      character above 127 is neither a digit, a space nor a word character.
    - Python [int] is [Z], without the interpreter's limit on the length of
      a decimal conversion; the [float] returned by [time.time()] is an exact
      rational [Q] (a finite float is a dyadic rational), and [int(x)] on it
      truncates toward zero.
    - A registry (a [dict] from job id to job) is a [gmap string _]; a job
      dict, whose keys the code fixes, is a record with an [option] for every
      key that may be absent; a dict literal that is only read (a progress
      event, a strategy) is an association list in source order.
    - Code that can raise returns a [result]; a method threads [self] and
      the operating system explicitly, and what the operating system answers
      is a parameter. *)

From Stdlib Require Import ZArith QArith String Ascii List Bool Lia.
From Stdlib Require Import DecimalString DecimalZ HexadecimalString HexadecimalN.
From stdpp Require Import gmap strings list fin_maps.

Open Scope Z_scope.
Open Scope string_scope.

(** ** Python values, exceptions and results *)

Module Py.

(** The exception classes the modules raise, catch or let through. All of
    them derive from [Exception]. *)
Inductive exn : Type :=
| RuntimeError (msg : string)
| TypeError (msg : string)
| ValueError (msg : string)
| KeyError (key : string)
| TimeoutExpired
| FileNotFoundError
| PermissionError.

Inductive result (A : Type) : Type :=
| Ok (a : A)
| Raise (e : exn).
Arguments Ok {A} a.
Arguments Raise {A} e.

Definition bind {A B} (r : result A) (k : A -> result B) : result B :=
  match r with
  | Ok a => k a
  | Raise e => Raise e
  end.

Definition is_ok {A} (r : result A) : bool :=
  match r with Ok _ => true | Raise _ => false end.

(** [str(e)] for the exceptions whose message the code interpolates. *)
Definition exn_str (e : exn) : string :=
  match e with
  | RuntimeError m | TypeError m | ValueError m => m
  | KeyError k => "'" ++ k ++ "'"
  | TimeoutExpired => "timed out"
  | FileNotFoundError => "No such file or directory"
  | PermissionError => "Permission denied"
  end.

(** Dictionary values that occur in events and job entries. *)
Inductive value : Type :=
| VStr (s : string)
| VInt (z : Z)
| VFloat (q : Q).

(** A read-only dict literal, in source order. *)
Definition Info : Type := list (string * value).

Fixpoint get (k : string) (d : Info) : option value :=
  match d with
  | [] => None
  | (k', v) :: d' => if String.eqb k k' then Some v else get k d'
  end.

(** The truth value of a [str]. *)
Definition nonempty (s : string) : bool := negb (String.eqb s "").

(** [d[k]] and [d.get(k, default)]. *)
Definition getitem (k : string) (d : Info) : result value :=
  match get k d with
  | Some v => Ok v
  | None => Raise (KeyError k)
  end.

Definition get_default (k : string) (dflt : value) (d : Info) : value :=
  match get k d with
  | Some v => v
  | None => dflt
  end.

(** Using a value where the callee needs a [str] or an [int]. *)
Definition as_str (v : value) : result string :=
  match v with
  | VStr s => Ok s
  | _ => Raise (TypeError "expected string or bytes-like object")
  end.

Definition as_int (v : value) : result Z :=
  match v with
  | VInt z => Ok z
  | _ => Raise (TypeError "an integer is required")
  end.

(** [str(n)] for an [int]. *)
Definition str_int (z : Z) : string := DecimalString.NilZero.string_of_int (Z.to_int z).

(** [f'{n:02x}'] *)
Definition format_02x (z : Z) : string :=
  let digits := HexadecimalString.NilZero.string_of_uint (N.to_hex_uint (Z.to_N (Z.abs z))) in
  if (z <? 0)%Z then "-" ++ digits
  else if (String.length digits <? 2)%nat then "0" ++ digits
  else digits.

(** [int(x)] for a finite [float]: truncation toward zero. *)
Definition int_float (q : Q) : Z := Z.quot (Qnum q) (Zpos (Qden q)).

(** Character tests, on the ASCII range. *)
Definition code (a : ascii) : N := N_of_ascii a.

Definition is_digit (a : ascii) : bool :=
  ((48 <=? code a) && (code a <=? 57))%N.

(** [str.isspace] and the regex class [\s]: tab, LF, VT, FF, CR, the four
    separators 0x1c-0x1f and the space. *)
Definition is_space (a : ascii) : bool :=
  (((9 <=? code a) && (code a <=? 13)) || ((28 <=? code a) && (code a <=? 32)))%N.

Definition is_upper (a : ascii) : bool :=
  ((65 <=? code a) && (code a <=? 90))%N.

Definition is_lower (a : ascii) : bool :=
  ((97 <=? code a) && (code a <=? 122))%N.

(** The regex class [\w]. *)
Definition is_word (a : ascii) : bool :=
  is_digit a || is_upper a || is_lower a || (code a =? 95)%N.

Definition to_lower (a : ascii) : ascii :=
  if is_upper a then ascii_of_N (code a + 32) else a.

Definition to_upper (a : ascii) : ascii :=
  if is_lower a then ascii_of_N (code a - 32) else a.

(** [s.lstrip()], [s.rstrip()], [s.strip()] *)
Fixpoint lstrip (s : string) : string :=
  match s with
  | EmptyString => EmptyString
  | String a s' => if is_space a then lstrip s' else s
  end.

Fixpoint rstrip (s : string) : string :=
  match s with
  | EmptyString => EmptyString
  | String a s' =>
      match rstrip s' with
      | EmptyString => if is_space a then EmptyString else String a EmptyString
      | r => String a r
      end
  end.

Definition strip (s : string) : string := rstrip (lstrip s).

(** [s.replace(a, '')] for a one-character [a]. *)
Fixpoint remove_char (a : ascii) (s : string) : string :=
  match s with
  | EmptyString => EmptyString
  | String b s' => if Ascii.eqb a b then remove_char a s' else String b (remove_char a s')
  end.

(** [a in s] for a one-character [a]. *)
Fixpoint contains_char (a : ascii) (s : string) : bool :=
  match s with
  | EmptyString => false
  | String b s' => Ascii.eqb a b || contains_char a s'
  end.

(** [s[:n]] and [s[n:]] for [n >= 0]. *)
Fixpoint str_take (n : nat) (s : string) : string :=
  match n, s with
  | S n', String a s' => String a (str_take n' s')
  | _, _ => EmptyString
  end.

Fixpoint str_drop (n : nat) (s : string) : string :=
  match n, s with
  | S n', String _ s' => str_drop n' s'
  | _, _ => s
  end.

(** The value of a digit in a base up to 16; [None] when it is not one. *)
Definition digit_value (base : Z) (a : ascii) : option Z :=
  let v :=
    if is_digit a then Some (Z.of_N (code a) - 48)
    else if ((97 <=? code a) && (code a <=? 102))%N then Some (Z.of_N (code a) - 87)
    else if ((65 <=? code a) && (code a <=? 70))%N then Some (Z.of_N (code a) - 55)
    else None in
  match v with
  | Some d => if Z.ltb d base then Some d else None
  | None => None
  end.

(** The digits of an [int] literal after sign and prefix: at least one
    digit, single underscores only between digits. [acc] is the value so
    far, [prev] tells whether the previous character was a digit. *)
Fixpoint int_digits (base : Z) (prev : bool) (acc : Z) (s : string) : option Z :=
  match s with
  | EmptyString => if prev then Some acc else None
  | String a s' =>
      if Ascii.eqb a "_" then
        if prev then
          match s' with
          | EmptyString => None
          | _ => int_digits base false acc s'
          end
        else None
      else
        match digit_value base a with
        | Some d => int_digits base true (acc * base + d) s'
        | None => None
        end
  end.

(** [int(s, base)] for base 10 or 16: surrounding white space is dropped,
    a sign is accepted, base 16 accepts the prefix [0x] (then an optional
    underscore), and anything else raises [ValueError]. *)
Definition int_str (base : Z) (s : string) : result Z :=
  let body := strip s in
  let '(neg, unsigned) :=
    match body with
    | String "-" r => (true, r)
    | String "+" r => (false, r)
    | _ => (false, body)
    end in
  let digits :=
    if Z.eqb base 16 then
      match unsigned with
      | String "0" (String x r) =>
          if Ascii.eqb x "x" || Ascii.eqb x "X" then
            match r with
            | String "_" r' => r'
            | _ => r
            end
          else unsigned
      | _ => unsigned
      end
    else unsigned in
  match int_digits base false 0 digits with
  | Some v => Ok (if neg then - v else v)
  | None => Raise (ValueError ("invalid literal for int(): " ++ s))
  end.

(** A non-empty string of decimal digits, which is what [(\d+)] captures. *)
Fixpoint all_digits (s : string) : bool :=
  match s with
  | EmptyString => true
  | String a s' => is_digit a && all_digits s'
  end.

Definition numeral (s : string) : Prop := s <> "" /\ all_digits s = true.

(** [s.lower()] and [s.upper()] *)
Fixpoint str_lower (s : string) : string :=
  match s with
  | EmptyString => EmptyString
  | String a s' => String (to_lower a) (str_lower s')
  end.

Fixpoint str_upper (s : string) : string :=
  match s with
  | EmptyString => EmptyString
  | String a s' => String (to_upper a) (str_upper s')
  end.

(** [needle in s] for two strings. *)
Fixpoint str_contains (needle s : string) : bool :=
  String.prefix needle s
  || match s with
     | EmptyString => false
     | String _ s' => str_contains needle s'
     end.

End Py.

Import Py.

(** [result] is an error monad; [x ← c; k] runs [c] and stops at the first
    exception. *)
#[global] Instance result_ret : MRet result := fun A a => Ok a.
#[global] Instance result_bind : MBind result := fun A B k r => Py.bind r k.

(** ** The fragment of Python's [re] the modules use

    Every pattern in the sources is a sequence of single-character classes,
    each with a quantifier, and groups that enclose whole quantified
    classes. [re.search] tries the start positions from left to right and
    at each one matches greedily with backtracking. *)

Module Re.

Inductive cclass : Type :=
| Lit (a : ascii)            (* a literal, or an escaped literal *)
| Digit                      (* \d *)
| Space                      (* \s *)
| Word                       (* \w *)
| Range (lo hi : ascii)      (* [lo-hi] *)
| Not (c : cclass)           (* [^...] *)
| Or (c1 c2 : cclass).       (* [...] with two members *)

Inductive quant : Type := One | Opt | Star | Plus.

Inductive piece : Type :=
| Atom (c : cclass) (q : quant)
| Open
| Close
| Eol.                        (* $ : the end, or just before a final newline *)

Definition regex : Type := list piece.

Fixpoint mem (c : cclass) (a : ascii) : bool :=
  match c with
  | Lit l => Ascii.eqb a l
  | Digit => is_digit a
  | Space => is_space a
  | Word => is_word a
  | Range lo hi => ((code lo <=? code a) && (code a <=? code hi))%N
  | Not c' => negb (mem c' a)
  | Or c1 c2 => mem c1 a || mem c2 a
  end.

(** [ic] is the flag [re.IGNORECASE]. *)
Definition accepts (ic : bool) (c : cclass) (a : ascii) : bool :=
  if ic then mem c (to_lower a) || mem c (to_upper a) else mem c a.

Definition snoc (s : string) (a : ascii) : string := s ++ String a EmptyString.

(** A greedy repetition of class [c]: take one more character if it is
    accepted and the rest then matches, otherwise stop here. [chunk] is
    what the repetition has consumed, [rest] matches what follows it. *)
Fixpoint many (ic : bool) (c : cclass) (rest : string -> string -> option (list string))
    (chunk s : string) {struct s} : option (list string) :=
  match s with
  | String a s' =>
      if accepts ic c a then
        match many ic c rest (snoc chunk a) s' with
        | Some r => Some r
        | None => rest chunk s
        end
      else rest chunk s
  | EmptyString => rest chunk s
  end.

(** Match [re] at the start of [s]; the result lists, for every [Atom] of
    [re] in order, the characters it consumed. *)
Fixpoint match_here (ic : bool) (re : regex) (s : string) {struct re} : option (list string) :=
  match re with
  | [] => Some []
  | Open :: re' | Close :: re' => match_here ic re' s
  | Eol :: re' =>
      match s with
      | EmptyString | String "010"%char EmptyString => match_here ic re' s
      | _ => None
      end
  | Atom c q :: re' =>
      let rest := fun (chunk s' : string) =>
        match match_here ic re' s' with
        | Some chunks => Some (chunk :: chunks)
        | None => None
        end in
      match q with
      | One =>
          match s with
          | String a s' => if accepts ic c a then rest (String a EmptyString) s' else None
          | EmptyString => None
          end
      | Opt =>
          match s with
          | String a s' =>
              if accepts ic c a then
                match rest (String a EmptyString) s' with
                | Some r => Some r
                | None => rest EmptyString s
                end
              else rest EmptyString s
          | EmptyString => rest EmptyString s
          end
      | Star => many ic c rest EmptyString s
      | Plus =>
          match s with
          | String a s' => if accepts ic c a then many ic c rest (String a EmptyString) s' else None
          | EmptyString => None
          end
      end
  end.

(** The text of the groups, from the consumed chunks. [cur] is the text of
    the group that is open, if one is. *)
Fixpoint groups (re : regex) (chunks : list string) (cur : option string) : list string :=
  match re with
  | [] => []
  | Open :: re' => groups re' chunks (Some EmptyString)
  | Close :: re' =>
      match cur with
      | Some g => g :: groups re' chunks None
      | None => groups re' chunks None
      end
  | Eol :: re' => groups re' chunks cur
  | Atom _ _ :: re' =>
      match chunks with
      | ch :: chunks' => groups re' chunks' (option_map (fun g => g ++ ch) cur)
      | [] => []
      end
  end.

(** [re.search(re, s, flags)]: [None], or the groups of the leftmost match. *)
Fixpoint search (ic : bool) (re : regex) (s : string) : option (list string) :=
  match match_here ic re s with
  | Some chunks => Some (groups re chunks None)
  | None =>
      match s with
      | String _ s' => search ic re s'
      | EmptyString => None
      end
  end.

(** [if re.search(re, s, flags):] *)
Definition matches (ic : bool) (re : regex) (s : string) : bool :=
  match search ic re s with
  | Some _ => true
  | None => false
  end.

(** [m.group(n)] for [n >= 1]; a group that does not exist is an
    [IndexError], which no caller can reach and is folded into
    [ValueError]. *)
Definition group (m : list string) (n : nat) : result string :=
  match m !! (n - 1)%nat with
  | Some g => Ok g
  | None => Raise (ValueError "no such group")
  end.

(** The classes and quantifiers of a pattern, and of each of its groups. *)
Definition atom : Type := cclass * quant.

Fixpoint atoms (re : regex) : list atom :=
  match re with
  | [] => []
  | Atom c q :: re' => (c, q) :: atoms re'
  | _ :: re' => atoms re'
  end.

Fixpoint group_atoms (re : regex) (cur : option (list atom)) : list (list atom) :=
  match re with
  | [] => []
  | Open :: re' => group_atoms re' (Some [])
  | Close :: re' =>
      match cur with
      | Some g => g :: group_atoms re' None
      | None => group_atoms re' None
      end
  | Eol :: re' => group_atoms re' cur
  | Atom c q :: re' => group_atoms re' (option_map (fun g => (g ++ [(c, q)])%list) cur)
  end.

Fixpoint all_accepted (ic : bool) (c : cclass) (s : string) : bool :=
  match s with
  | EmptyString => true
  | String a s' => accepts ic c a && all_accepted ic c s'
  end.

(** What an atom can have consumed, and what a group can hold. *)
Definition chunk_ok (ic : bool) (a : atom) (chunk : string) : Prop :=
  all_accepted ic a.1 chunk = true /\
  match a.2 with
  | One | Plus => chunk <> EmptyString
  | Opt | Star => True
  end.

Definition join (chunks : list string) : string := foldr String.append EmptyString chunks.

Definition group_ok (ic : bool) (inside : list atom) (g : string) : Prop :=
  exists chunks, Forall2 (chunk_ok ic) inside chunks /\ g = join chunks.

(** The state of [groups] and of [group_atoms] when they walk a pattern in
    step: the text of the open group is what its atoms so far accept. *)
Definition in_step (ic : bool) (cur : option string) (inside : option (list atom)) : Prop :=
  match cur, inside with
  | Some g, Some l => group_ok ic l g
  | None, None => True
  | _, _ => False
  end.

(** A literal run of characters. *)
Fixpoint lit (s : string) : regex :=
  match s with
  | EmptyString => []
  | String a s' => Atom (Lit a) One :: lit s'
  end.

(** [(\d+)] *)
Definition digits1 : regex := [Open; Atom Digit Plus; Close].

End Re.

Import Re.


(** ** The operating system as the modules see it

    [subprocess.run], [subprocess.Popen] and the methods of a [Popen]
    handle. What a call answers is up to the environment, which may look at
    everything that happened before; every call is recorded. *)

Module Subprocess.

(** How a command is handed to the launcher: a list of arguments
    ([shell=False], the default), or one string for [/bin/sh -c]
    ([shell=True]). *)
Inductive launch : Type :=
| Argv (args : list string)
| Shell (command : string).

Inductive syscall : Type :=
| SRun (cmd : launch) (timeout : option Z)
| SPopen (cmd : launch)
| STerminate (pid : nat)
| SWait (pid : nat) (timeout : option Z)
| SKill (pid : nat).

(** [subprocess.CompletedProcess] *)
Record completed : Type := { returncode : Z; stdout : string; stderr : string }.

Record Env : Type := {
  env_run : list syscall -> launch -> result completed;
  env_popen : list syscall -> launch -> option exn;
  env_terminate : list syscall -> nat -> option exn;
  env_wait : list syscall -> nat -> result Z;
  env_kill : list syscall -> nat -> option exn;
  env_euid : Z
}.

Record OS : Type := { env : Env; log : list syscall }.

Definition record (c : syscall) (os : OS) : OS :=
  {| env := env os; log := (log os ++ [c])%list |}.

(** [subprocess.run(cmd, capture_output=True, timeout=t)] *)
Definition run (cmd : launch) (timeout : option Z) (os : OS) : result completed * OS :=
  (env_run (env os) (log os) cmd, record (SRun cmd timeout) os).

(** [subprocess.Popen(cmd, stdout=PIPE, stderr=PIPE)]; the handle is the
    number of the call. *)
Definition Popen (cmd : launch) (os : OS) : result nat * OS :=
  match env_popen (env os) (log os) cmd with
  | Some e => (Raise e, record (SPopen cmd) os)
  | None => (Ok (length (log os)), record (SPopen cmd) os)
  end.

Definition of_signal (o : option exn) : result unit :=
  match o with
  | Some e => Raise e
  | None => Ok tt
  end.

(** [p.terminate()], [p.wait(timeout=t)], [p.kill()] *)
Definition terminate (p : nat) (os : OS) : result unit * OS :=
  (of_signal (env_terminate (env os) (log os) p), record (STerminate p) os).

Definition wait (p : nat) (timeout : option Z) (os : OS) : result Z * OS :=
  (env_wait (env os) (log os) p, record (SWait p timeout) os).

Definition kill (p : nat) (os : OS) : result unit * OS :=
  (of_signal (env_kill (env os) (log os) p), record (SKill p) os).

(** The body that [CrunchIntegration.stop_generation] and the [stop_attack]
    of the cowpatty, wifite and MDK integrations share word for word:
<<
    if self.current_process:
        try:
            self.current_process.terminate()
            self.current_process.wait(timeout=5)
            return True
        except subprocess.TimeoutExpired:
            self.current_process.kill()
            return True
        except Exception:
            return False
    return False
>>
    An exception raised by [kill] inside the handler is not caught. *)
Definition stop_current (current_process : option nat) (os : OS) : result bool * OS :=
  match current_process with
  | Some p =>
      let handler (e : exn) (os0 : OS) : result bool * OS :=
        match e with
        | TimeoutExpired =>
            let '(k, os1) := kill p os0 in
            match k with
            | Ok _ => (Ok true, os1)
            | Raise e' => (Raise e', os1)
            end
        | _ => (Ok false, os0)
        end in
      let '(t, os1) := terminate p os in
      match t with
      | Raise e => handler e os1
      | Ok _ =>
          let '(w, os2) := wait p (Some 5) os1 in
          match w with
          | Raise e => handler e os2
          | Ok _ => (Ok true, os2)
          end
      end
  | None => (Ok false, os)
  end.

(** The launches among the recorded calls. *)
Definition launches (l : list syscall) : list launch :=
  omap (fun c => match c with
                 | SRun cmd _ | SPopen cmd => Some cmd
                 | _ => None
                 end) l.

End Subprocess.

Import Subprocess.

(** ** Methods

    A method reads and writes the fields of [self], calls the operating
    system and returns or raises. A write made before an exception stays. *)

Module Method.

Definition method (S A : Type) : Type := S -> OS -> result A * S * OS.

Definition ret {S A} (a : A) : method S A := fun s os => (Ok a, s, os).

Definition raise {S A} (e : exn) : method S A := fun s os => (Raise e, s, os).

Definition bind {S A B} (m : method S A) (k : A -> method S B) : method S B :=
  fun s os =>
    let '(r, s', os') := m s os in
    match r with
    | Ok a => k a s' os'
    | Raise e => (Raise e, s', os')
    end.

(** A pure computation that may raise. *)
Definition of_result {S A} (r : result A) : method S A := fun s os => (r, s, os).

(** A call to the operating system. *)
Definition sys {S A} (c : OS -> result A * OS) : method S A :=
  fun s os => let '(r, os') := c os in (r, s, os').

Definition read {S} : method S S := fun s os => (Ok s, s, os).

Definition write {S} (s' : S) : method S unit := fun _ os => (Ok tt, s', os).

(** [try: m  except Exception as e: h e] *)
Definition try_except {S A} (m : method S A) (h : exn -> method S A) : method S A :=
  fun s os =>
    let '(r, s', os') := m s os in
    match r with
    | Ok a => (Ok a, s', os')
    | Raise e => h e s' os'
    end.

(** A method of an object held in a field of [self]. *)
Definition on_field {S F A} (proj : S -> F) (upd : F -> S -> S) (m : method F A) : method S A :=
  fun s os => let '(r, f', os') := m (proj s) os in (r, upd f' s, os').

End Method.

Import Method.

Notation "'let*' x ':=' c 'in' k" := (Method.bind c (fun x => k))
  (at level 10, x name, c at level 100, k at level 200).

(** ** Job entries and what the three controllers share

    Every controller keeps a dict from job id to a job dict. The keys of a
    job dict are fixed by the code, so a job is a record; a key that the
    code may not have written yet is an [option]. *)

Module Jobs.

Record Job : Type := {
  process : nat;                 (* 'process': the Popen handle *)
  details : Info;                (* the request: 'output_file', 'ssid', 'bssid', ... *)
  strategy : option Info;        (* 'strategy', crunch only *)
  start_time : Q;                (* 'start_time' *)
  status : option string;        (* 'status' *)
  last_update : option Q;        (* 'last_update' *)
  progress : option value;       (* 'progress' *)
  job_result : option Info       (* 'result' *)
}.

Definition set_status (s : string) (j : Job) : Job :=
  {| process := process j; details := details j; strategy := strategy j;
     start_time := start_time j; status := Some s; last_update := last_update j;
     progress := progress j; job_result := job_result j |}.

Definition set_last_update (t : Q) (j : Job) : Job :=
  {| process := process j; details := details j; strategy := strategy j;
     start_time := start_time j; status := status j; last_update := Some t;
     progress := progress j; job_result := job_result j |}.

Definition set_progress (v : value) (j : Job) : Job :=
  {| process := process j; details := details j; strategy := strategy j;
     start_time := start_time j; status := status j; last_update := last_update j;
     progress := Some v; job_result := job_result j |}.

Definition set_result (r : Info) (j : Job) : Job :=
  {| process := process j; details := details j; strategy := strategy j;
     start_time := start_time j; status := status j; last_update := last_update j;
     progress := progress j; job_result := Some r |}.

(** [info.get(k) == s] for a string [s]. *)
Definition get_is (k : string) (s : string) (info : Info) : bool :=
  match get k info with
  | Some (VStr s') => String.eqb s' s
  | _ => false
  end.

(** [info.get('status') in statuses] *)
Definition status_in (statuses : list string) (j : Job) : bool :=
  match status j with
  | Some s => bool_decide (s ∈ statuses)
  | None => false
  end.

(** [x > y] on floats. *)
Definition Qgtb (x y : Q) : bool := negb (Qle_bool x y).

(** [current_time - info.get('last_update', 0) > window] *)
Definition older_than (window : Z) (current_time : Q) (j : Job) : bool :=
  Qgtb (current_time - default 0%Q (last_update j)) (inject_Z window).

(** The two nested tests of the clean-up loop. *)
Definition expired (statuses : list string) (window : Z) (current_time : Q) (j : Job) : bool :=
  status_in statuses j && older_than window current_time j.

(** The body the three clean-up methods share, up to the list of statuses
    and the window:
<<
    current_time = time.time()
    to_remove = []
    for id, info in self.active.items():
        if info.get('status') in statuses:
            if current_time - info.get('last_update', 0) > window:
                to_remove.append(id)
    for id in to_remove:
        del self.active[id]
>> *)
Definition sweep (statuses : list string) (window : Z) (current_time : Q)
    (active : gmap string Job) : gmap string Job :=
  let to_remove :=
    List.map fst
      (List.filter (fun entry => expired statuses window current_time entry.2)
         (map_to_list active)) in
  foldl (fun m id => delete id m) active to_remove.

(** The statuses the specification calls terminal. *)
Definition terminal_statuses : list string := ["completed"; "failed"; "stopped"; "timed_out"].

End Jobs.

Import Jobs.

(** ** crunch_integration.py *)

Module CrunchIntegration.

Record t : Type := { crunch_available : bool; current_process : option nat }.

(** [_check_crunch]: [subprocess.run(['crunch', '-h'], capture_output=True,
    timeout=5)], with [except (TimeoutExpired, FileNotFoundError)]. *)
Definition _check_crunch (os : OS) : result bool * OS :=
  let '(r, os') := run (Argv ["crunch"; "-h"]) (Some 5) os in
  match r with
  | Ok result => (Ok (returncode result =? 0)%Z, os')
  | Raise TimeoutExpired | Raise FileNotFoundError => (Ok false, os')
  | Raise e => (Raise e, os')
  end.

Definition __init__ (os : OS) : result t * OS :=
  let '(r, os') := _check_crunch os in
  match r with
  | Ok b => (Ok {| crunch_available := b; current_process := None |}, os')
  | Raise e => (Raise e, os')
  end.

(** The keyword options [generate_wordlist] looks at. *)
Record options : Type := {
  count : option Z; duplicate : bool; invert : bool; literal : bool; permute : bool
}.

Definition no_options : options :=
  {| count := None; duplicate := false; invert := false; literal := false; permute := false |}.

(** The list [cmd] that [generate_wordlist] builds before it launches. *)
Definition generate_wordlist_cmd (min_length max_length : Z) (charset output_file : string)
    (pattern : option string) (opts : options) : list string :=
  (["crunch"; str_int min_length; str_int max_length; charset; "-o"; output_file]
   ++ match pattern with
      | Some p => if nonempty p then ["-t"; p] else []
      | None => []
      end
   ++ match count opts with
      | Some n => if (n =? 0)%Z then [] else ["-c"; str_int n]
      | None => []
      end
   ++ (if duplicate opts then ["-d"] else [])
   ++ (if invert opts then ["-i"] else [])
   ++ (if literal opts then ["-l"] else [])
   ++ (if permute opts then ["-p"] else []))%list.

Definition set_current_process (p : nat) (self : t) : t :=
  {| crunch_available := crunch_available self; current_process := Some p |}.

Definition generate_wordlist (min_length max_length : Z) (charset output_file : string)
    (pattern : option string) (opts : options) : method t nat :=
  let* self := read in
  if negb (crunch_available self) then raise (RuntimeError "Crunch not available")
  else
    let cmd := generate_wordlist_cmd min_length max_length charset output_file pattern opts in
    let* p := sys (Popen (Argv cmd)) in
    let* _ := write (set_current_process p self) in
    ret p.

Definition generate_alphanumeric_wordlist (min_length max_length : Z) (output_file : string)
    (case : string) : method t nat :=
  let charset :=
    if String.eqb case "upper" then "ABCDEFGHIJKLMNOPQRSTUVWXYZ0123456789"
    else if String.eqb case "mixed" then
      "ABCDEFGHIJKLMNOPQRSTUVWXYZabcdefghijklmnopqrstuvwxyz0123456789"
    else "abcdefghijklmnopqrstuvwxyz0123456789" in
  generate_wordlist min_length max_length charset output_file None no_options.

Definition generate_numeric_wordlist (min_length max_length : Z) (output_file : string)
    : method t nat :=
  generate_wordlist min_length max_length "0123456789" output_file None no_options.

Definition generate_alpha_wordlist (min_length max_length : Z) (output_file : string)
    (case : string) : method t nat :=
  let charset :=
    if String.eqb case "upper" then "ABCDEFGHIJKLMNOPQRSTUVWXYZ"
    else if String.eqb case "mixed" then
      "ABCDEFGHIJKLMNOPQRSTUVWXYZabcdefghijklmnopqrstuvwxyz"
    else "abcdefghijklmnopqrstuvwxyz" in
  generate_wordlist min_length max_length charset output_file None no_options.

Definition generate_custom_charset_wordlist (min_length max_length : Z)
    (charset output_file : string) : method t nat :=
  generate_wordlist min_length max_length charset output_file None no_options.

(** The symbol set of the pattern character [^]; character 34 is the
    double quote. *)
Definition symbols : string :=
  "!@#$%^&*()-_+=~`[]{}|\:;" ++ String "034"%char "'<>,.?/".

Definition generate_pattern_based_wordlist (pattern output_file : string) : method t nat :=
  let charset :=
    (if contains_char "@" pattern then "abcdefghijklmnopqrstuvwxyz" else "")
    ++ (if contains_char "," pattern then "ABCDEFGHIJKLMNOPQRSTUVWXYZ" else "")
    ++ (if contains_char "%" pattern then "0123456789" else "")
    ++ (if contains_char "^" pattern then symbols else "") in
  let min_length := Z.of_nat (String.length pattern) in
  let max_length := min_length in
  generate_wordlist min_length max_length charset output_file (Some pattern) no_options.

(** [(\d+)%] and [(\d+)\s+words] *)
Definition percent_re : regex := (digits1 ++ lit "%")%list.
Definition words_re : regex := (digits1 ++ [Atom Space Plus] ++ lit "words")%list.

Definition _parse_progress (line : string) : result (option Info) :=
  match search false percent_re line with
  | Some percent_match =>
      g ← group percent_match 1;
      n ← int_str 10 g;
      Ok (Some [("type", VStr "progress"); ("percentage", VInt n)])
  | None =>
      match search true words_re line with
      | Some words_match =>
          g ← group words_match 1;
          n ← int_str 10 g;
          Ok (Some [("type", VStr "words_generated"); ("count", VInt n)])
      | None => Ok None
      end
  end.

Definition stop_generation : method t bool :=
  let* self := read in sys (stop_current (current_process self)).

(** What [estimate_wordlist_size] can come to. An [int] raised to a
    negative [int] is a [float] in Python, and zero raised to a negative
    power raises [ZeroDivisionError]; [Inexact] stands for a run that went
    on in float arithmetic, which is not modelled. *)
Inductive estimate : Type :=
| Exact (total : Z)
| DivisionByZero
| Inexact.

(** The loop [for length in range(...): total += charset_size ** length]. *)
Fixpoint estimate_loop (charset_size : Z) (total : Z) (lengths : list Z) : estimate :=
  match lengths with
  | [] => Exact total
  | length :: rest =>
      if (0 <=? length)%Z then estimate_loop charset_size (total + charset_size ^ length) rest
      else if (charset_size =? 0)%Z then DivisionByZero
      else Inexact
  end.

(** [range(a, b)] *)
Definition range (a b : Z) : list Z := seqZ a (b - a).

Definition estimate_wordlist_size (min_length max_length charset_size : Z) (self : t)
    : estimate * t :=
  (estimate_loop charset_size 0 (range min_length (max_length + 1)), self).

End CrunchIntegration.

(** The monitor thread of every integration: each line read is stripped and
    parsed, and an event that is a non-empty dict goes to the callback;
    when the process has ended the thread delivers [final]. The result is
    the list of callback arguments in the order of the calls. An empty
    string from [readline] is skipped. *)
Module Monitor.

Fixpoint deliver (parse : string -> result (option Info)) (lines : list string)
    : result (list Info) :=
  match lines with
  | [] => Ok []
  | line :: rest =>
      if String.eqb line "" then deliver parse rest
      else
        progress ← parse (strip line);
        later ← deliver parse rest;
        Ok (match progress with
            | Some ev => if bool_decide (ev = []) then later else ev :: later
            | None => later
            end)
  end.

Definition monitor (parse : string -> result (option Info)) (final : list Info)
    (lines : list string) : result (list Info) :=
  evs ← deliver parse lines; Ok (evs ++ final)%list.

(** The last callback of the crunch, wifite and MDK monitors. *)
Definition completed : Info := [("status", VStr "completed")].

End Monitor.

(** [CrunchIntegration.monitor_generation_progress(callback)] with a
    callback: the arguments of the calls the thread makes, in order, when
    [lines] is what [readline] returned while the process ran. Without a
    process the method returns at once, no thread is started and no call is
    made, not even the last one. *)
Module CrunchMonitor.

Definition monitor_generation_progress (lines : list string) (self : CrunchIntegration.t)
    : result (list Info) :=
  match CrunchIntegration.current_process self with
  | Some _ => Monitor.monitor CrunchIntegration._parse_progress [Monitor.completed] lines
  | None => Ok []
  end.

End CrunchMonitor.

Module AdvancedCrunchController.

Record t : Type := {
  crunch : CrunchIntegration.t;
  active_generations : gmap string Job
}.

Definition set_crunch (c : CrunchIntegration.t) (self : t) : t :=
  {| crunch := c; active_generations := active_generations self |}.

Definition set_active_generations (m : gmap string Job) (self : t) : t :=
  {| crunch := crunch self; active_generations := m |}.

(** A method of [self.crunch]. *)
Definition on_crunch {A} (m : method CrunchIntegration.t A) : method t A :=
  on_field crunch set_crunch m.

Definition __init__ (os : OS) : result t * OS :=
  let '(r, os') := CrunchIntegration.__init__ os in
  match r with
  | Ok c => (Ok {| crunch := c; active_generations := ∅ |}, os')
  | Raise e => (Raise e, os')
  end.

(** [\d{8}] and [[A-Z]{3,}], with the counted repetitions written out. *)
Definition eight_digits : regex := List.repeat (Atom Digit One) 8.
Definition three_upper : regex :=
  (List.repeat (Atom (Range "A" "Z") One) 3 ++ [Atom (Range "A" "Z") Star])%list.

Definition _analyze_target (target_info : Info) : result Info :=
  ssid ← as_str (get_default "ssid" (VStr "") target_info);
  if matches false eight_digits ssid then
    Ok [("type", VStr "pattern"); ("pattern", VStr "@@@@@@@@");
        ("description", VStr "Birthday pattern (8 digits)")]
  else if matches false three_upper ssid then
    Ok [("type", VStr "charset"); ("charset", VStr "ABCDEFGHIJKLMNOPQRSTUVWXYZ0123456789");
        ("min_length", VInt 8); ("max_length", VInt 12);
        ("description", VStr "Mixed alphanumeric")]
  else
    Ok [("type", VStr "charset"); ("charset", VStr "abcdefghijklmnopqrstuvwxyz0123456789");
        ("min_length", VInt 8); ("max_length", VInt 16);
        ("description", VStr "Standard alphanumeric")].

(** The id-generation step, [f'crunch_{int(time.time())}']; [t0] is what
    [time.time()] returns there. *)
Definition generation_id (t0 : Q) : string := "crunch_" ++ str_int (int_float t0).

Definition is_str (v : value) (s : string) : bool :=
  match v with
  | VStr s' => String.eqb s' s
  | _ => false
  end.

(** [start_smart_wordlist_generation]; [t0] and [t1] are the two readings
    of [time.time()], for the id and for ['start_time']. The monitor thread
    that the method starts acts later, through [_handle_progress]. *)
Definition start_smart_wordlist_generation (t0 t1 : Q) (target_info : Info)
    (output_file : string) : method t string :=
  let generation_id := generation_id t0 in
  try_except
    (let* strategy := of_result (_analyze_target target_info) in
     let* kind := of_result (getitem "type" strategy) in
     let* process :=
       if is_str kind "pattern" then
         let* pattern := of_result (v ← getitem "pattern" strategy; as_str v) in
         on_crunch (CrunchIntegration.generate_pattern_based_wordlist pattern output_file)
       else if is_str kind "charset" then
         let* min_length := of_result (v ← getitem "min_length" strategy; as_int v) in
         let* max_length := of_result (v ← getitem "max_length" strategy; as_int v) in
         let* charset := of_result (v ← getitem "charset" strategy; as_str v) in
         on_crunch (CrunchIntegration.generate_wordlist min_length max_length charset
                      output_file None CrunchIntegration.no_options)
       else
         on_crunch (CrunchIntegration.generate_alphanumeric_wordlist 8 12 output_file "lower") in
     let* self := read in
     let* _ := write (set_active_generations
                        (<[generation_id :=
                             {| process := process;
                                details := [("output_file", VStr output_file)];
                                strategy := Some strategy;
                                start_time := t1;
                                status := Some "running";
                                last_update := None;
                                progress := None;
                                job_result := None |}]> (active_generations self)) self) in
     ret generation_id)
    (fun e => raise (RuntimeError ("Failed to start wordlist generation: " ++ exn_str e))).

(** [_handle_progress]; [now] is the reading of [time.time()]. *)
Definition _handle_progress (generation_id : string) (info : Info) (now : Q) (self : t) : t :=
  match active_generations self !! generation_id with
  | Some gen_info =>
      let gen_info := set_last_update now gen_info in
      let gen_info :=
        if get_is "status" "completed" info then set_status "completed" gen_info
        else if get_is "type" "progress" info then
          set_progress (get_default "percentage" (VInt 0) info) gen_info
        else gen_info in
      set_active_generations (<[generation_id := gen_info]> (active_generations self)) self
  | None => self
  end.

Definition get_generation_status (generation_id : string) (self : t) : option Job :=
  active_generations self !! generation_id.

Definition stop_generation (generation_id : string) : method t bool :=
  let* self := read in
  match active_generations self !! generation_id with
  | Some _ =>
      let* success := on_crunch CrunchIntegration.stop_generation in
      let* self := read in
      let* _ :=
        if success then
          match active_generations self !! generation_id with
          | Some entry =>
              write (set_active_generations
                       (<[generation_id := set_status "stopped" entry]> (active_generations self))
                       self)
          | None => raise (KeyError generation_id)
          end
        else ret tt in
      ret success
  | None => ret false
  end.

(** [cleanup_generations]; [current_time] is the reading of [time.time()]. *)
Definition cleanup_generations (current_time : Q) (self : t) : t :=
  set_active_generations
    (sweep ["completed"; "stopped"] 300 current_time (active_generations self)) self.

(** The calls [lambda info: self._handle_progress(generation_id, info)]
    that the monitor thread makes, one per event; each call reads the
    clock, and [clock i] is the reading of the call number [i]. *)
Fixpoint callbacks (generation_id : string) (events : list Info) (clock : nat -> Q) (i : nat)
    (self : t) : t :=
  match events with
  | [] => self
  | info :: rest =>
      callbacks generation_id rest clock (S i) (_handle_progress generation_id info (clock i) self)
  end.

(** What the monitor thread of the job [generation_id] does to the
    controller from its start to its end, with nothing else in between. *)
Definition monitored (generation_id : string) (lines : list string) (clock : nat -> Q)
    (self : t) : result t :=
  events ← CrunchMonitor.monitor_generation_progress lines (crunch self);
  Ok (callbacks generation_id events clock 0 self).

End AdvancedCrunchController.

(** ** cowpatty_integration.py *)

Module CowpattyIntegration.

Record t : Type := {
  cowpatty_available : bool;
  genpmk_available : bool;
  current_process : option nat
}.

(** [cowpatty] exits with an error when it has no arguments, so any exit
    code counts as available. *)
Definition _check_cowpatty (os : OS) : result bool * OS :=
  let '(r, os') := run (Argv ["cowpatty"]) (Some 5) os in
  match r with
  | Ok _ => (Ok true, os')
  | Raise TimeoutExpired | Raise FileNotFoundError => (Ok false, os')
  | Raise e => (Raise e, os')
  end.

Definition set_current_process (p : nat) (self : t) : t :=
  {| cowpatty_available := cowpatty_available self;
     genpmk_available := genpmk_available self;
     current_process := Some p |}.

Definition _check_genpmk (os : OS) : result bool * OS :=
  let '(r, os') := run (Argv ["genpmk"]) (Some 5) os in
  match r with
  | Ok _ => (Ok true, os')
  | Raise TimeoutExpired | Raise FileNotFoundError => (Ok false, os')
  | Raise e => (Raise e, os')
  end.

Definition __init__ (os : OS) : result t * OS :=
  let '(r, os') := _check_cowpatty os in
  match r with
  | Ok cowpatty =>
      let '(r', os'') := _check_genpmk os' in
      match r' with
      | Ok genpmk =>
          (Ok {| cowpatty_available := cowpatty; genpmk_available := genpmk;
                 current_process := None |}, os'')
      | Raise e => (Raise e, os'')
      end
  | Raise e => (Raise e, os')
  end.

(** [precompute_pmk]; [path_exists] is what [os.path.exists] answers after
    [genpmk] has run. Only [TimeoutExpired] is caught. *)
Definition precompute_pmk (ssid wordlist : string) (output_file : option string)
    (path_exists : string -> bool) : method t (option string) :=
  let* self := read in
  if negb (genpmk_available self) then ret None
  else
    let output_file :=
      match output_file with
      | Some f => if nonempty f then f else "/tmp/fern-log/cowpatty_" ++ ssid ++ "_pmk.txt"
      | None => "/tmp/fern-log/cowpatty_" ++ ssid ++ "_pmk.txt"
      end in
    try_except
      (let cmd := ["genpmk"; "-f"; wordlist; "-d"; output_file; "-s"; ssid] in
       let* result := sys (run (Argv cmd) (Some 300)) in
       if (returncode result =? 0)%Z && path_exists output_file then ret (Some output_file)
       else ret None)
      (fun e => match e with
                | TimeoutExpired => ret None
                | _ => raise e
                end).

Definition attack_with_pmk_file (pmk_file capture_file ssid : string) : method t nat :=
  let* self := read in
  if negb (cowpatty_available self) then raise (RuntimeError "Cowpatty not available")
  else
    let cmd := ["cowpatty"; "-d"; pmk_file; "-r"; capture_file; "-s"; ssid] in
    let* p := sys (Popen (Argv cmd)) in
    let* _ := write (set_current_process p self) in
    ret p.

Definition attack_with_wordlist (wordlist capture_file ssid : string) : method t nat :=
  let* self := read in
  if negb (cowpatty_available self) then raise (RuntimeError "Cowpatty not available")
  else
    let cmd := ["cowpatty"; "-f"; wordlist; "-r"; capture_file; "-s"; ssid] in
    let* p := sys (Popen (Argv cmd)) in
    let* _ := write (set_current_process p self) in
    ret p.

(** [key\s*found\s*\[\s*(\d+)\s*\]], [(\d+)%] and
    [(\d+)\s+passphrases?\s+tested] *)
Definition key_re : regex :=
  (lit "key" ++ [Atom Space Star] ++ lit "found" ++ [Atom Space Star; Atom (Lit "[") One;
   Atom Space Star] ++ digits1 ++ [Atom Space Star; Atom (Lit "]") One])%list.
Definition progress_re : regex := (digits1 ++ lit "%")%list.
Definition tested_re : regex :=
  (digits1 ++ [Atom Space Plus] ++ lit "passphrase" ++ [Atom (Lit "s") Opt; Atom Space Plus]
   ++ lit "tested")%list.

Definition _parse_progress (line : string) : result (option Info) :=
  match search true key_re line with
  | Some key_match =>
      g ← group key_match 1;
      n ← int_str 10 g;
      Ok (Some [("type", VStr "key_found"); ("key_index", VInt n); ("status", VStr "success")])
  | None =>
      match search false progress_re line with
      | Some progress_match =>
          g ← group progress_match 1;
          n ← int_str 10 g;
          Ok (Some [("type", VStr "progress"); ("percentage", VInt n)])
      | None =>
          match search true tested_re line with
          | Some tested_match =>
              g ← group tested_match 1;
              n ← int_str 10 g;
              Ok (Some [("type", VStr "passphrases_tested"); ("count", VInt n)])
          | None => Ok None
          end
      end
  end.

Definition stop_attack : method t bool :=
  let* self := read in sys (stop_current (current_process self)).

(** [key\s*found\s*\[\s*\d+\s*\]\s*([^\s]+)] *)
Definition final_key_re : regex :=
  (lit "key" ++ [Atom Space Star] ++ lit "found"
   ++ [Atom Space Star; Atom (Lit "[") One; Atom Space Star; Atom Digit Plus; Atom Space Star;
       Atom (Lit "]") One; Atom Space Star; Open; Atom (Not Space) Plus; Close])%list.

(** [_get_final_result]; [communicate] is what
    [self.current_process.communicate(timeout=5)] answers, the pair of the
    remaining output and error text or an exception. *)
Definition _get_final_result (communicate : result (string * string)) (self : t)
    : result (option Info) :=
  match current_process self with
  | None => Ok None
  | Some _ =>
      match communicate with
      | Ok (output, error) =>
          let failed := Ok (Some [("type", VStr "completed"); ("status", VStr "failed")]) in
          if str_contains "key found" (str_lower output) then
            match search true final_key_re output with
            | Some key_match =>
                key ← group key_match 1;
                Ok (Some [("type", VStr "completed"); ("status", VStr "success");
                          ("key", VStr key)])
            | None => failed
            end
          else failed
      | Raise TimeoutExpired => Ok (Some [("type", VStr "timeout"); ("status", VStr "failed")])
      | Raise e => Raise e
      end
  end.

(** [monitor_attack_progress(callback)] with a callback: the arguments of
    the calls the thread makes, in order. The events of the lines come
    first; the final result follows when it is a non-empty dict. *)
Definition monitor_attack_progress (lines : list string) (communicate : result (string * string))
    (self : t) : result (list Info) :=
  match current_process self with
  | None => Ok []
  | Some _ =>
      events ← Monitor.deliver _parse_progress lines;
      final ← _get_final_result communicate self;
      Ok (events ++ match final with
                    | Some ev => if bool_decide (ev = []) then [] else [ev]
                    | None => []
                    end)%list
  end.

Definition get_supported_formats : list string := [".cap"; ".pcap"; ".pcapng"].

(** [validate_capture_file] *)
Definition validate_capture_file (capture_file : string) (os : OS) : result bool * OS :=
  let '(r, os') := run (Argv ["cowpatty"; "-c"; "-r"; capture_file]) (Some 10) os in
  match r with
  | Ok result =>
      (Ok (str_contains "1 handshake" (stdout result) || str_contains "handshakes" (stdout result)),
       os')
  | Raise TimeoutExpired | Raise FileNotFoundError => (Ok false, os')
  | Raise e => (Raise e, os')
  end.

End CowpattyIntegration.

Module AdvancedCowpattyController.

Record t : Type := {
  cowpatty : CowpattyIntegration.t;
  active_attacks : gmap string Job
}.

Definition set_cowpatty (c : CowpattyIntegration.t) (self : t) : t :=
  {| cowpatty := c; active_attacks := active_attacks self |}.

Definition set_active_attacks (m : gmap string Job) (self : t) : t :=
  {| cowpatty := cowpatty self; active_attacks := m |}.

Definition on_cowpatty {A} (m : method CowpattyIntegration.t A) : method t A :=
  on_field cowpatty set_cowpatty m.

(** The id-generation step of [start_optimized_attack],
    [f'cowpatty_{ssid}_{int(time.time())}']. *)
Definition attack_id (ssid : string) (t0 : Q) : string :=
  "cowpatty_" ++ ssid ++ "_" ++ str_int (int_float t0).

Definition __init__ (os : OS) : result t * OS :=
  let '(r, os') := CowpattyIntegration.__init__ os in
  match r with
  | Ok c => (Ok {| cowpatty := c; active_attacks := ∅ |}, os')
  | Raise e => (Raise e, os')
  end.

(** [start_optimized_attack]; [t0] and [t1] are the two readings of
    [time.time()], for the id and for ['start_time'], and [path_exists] is
    what [os.path.exists] answers inside [precompute_pmk]. *)
Definition start_optimized_attack (t0 t1 : Q) (ssid capture_file wordlist : string)
    (use_precomputation : bool) (path_exists : string -> bool) : method t string :=
  let attack_id := attack_id ssid t0 in
  try_except
    (let* self := read in
     let* process :=
       if use_precomputation && CowpattyIntegration.genpmk_available (cowpatty self) then
         let* pmk_file :=
           on_cowpatty (CowpattyIntegration.precompute_pmk ssid wordlist None path_exists) in
         match pmk_file with
         | Some f =>
             if nonempty f then
               on_cowpatty (CowpattyIntegration.attack_with_pmk_file f capture_file ssid)
             else on_cowpatty (CowpattyIntegration.attack_with_wordlist wordlist capture_file ssid)
         | None => on_cowpatty (CowpattyIntegration.attack_with_wordlist wordlist capture_file ssid)
         end
       else on_cowpatty (CowpattyIntegration.attack_with_wordlist wordlist capture_file ssid) in
     let* self := read in
     let* _ := write (set_active_attacks
                        (<[attack_id :=
                             {| process := process;
                                details := [("ssid", VStr ssid);
                                            ("capture_file", VStr capture_file);
                                            ("wordlist", VStr wordlist)];
                                strategy := None;
                                start_time := t1;
                                status := Some "running";
                                last_update := None;
                                progress := None;
                                job_result := None |}]> (active_attacks self)) self) in
     ret attack_id)
    (fun e => raise (RuntimeError ("Failed to start cowpatty attack: " ++ exn_str e))).

Definition _handle_progress (attack_id : string) (info : Info) (now : Q) (self : t) : t :=
  match active_attacks self !! attack_id with
  | Some attack_info =>
      let attack_info := set_last_update now attack_info in
      let attack_info :=
        if get_is "type" "key_found" info then set_result info (set_status "completed" attack_info)
        else if get_is "type" "completed" info then
          set_result info (set_status "completed" attack_info)
        else if get_is "type" "progress" info then
          set_progress (get_default "percentage" (VInt 0) info) attack_info
        else attack_info in
      set_active_attacks (<[attack_id := attack_info]> (active_attacks self)) self
  | None => self
  end.

Definition stop_attack (attack_id : string) : method t bool :=
  let* self := read in
  match active_attacks self !! attack_id with
  | Some _ =>
      let* success := on_cowpatty CowpattyIntegration.stop_attack in
      let* self := read in
      let* _ :=
        if success then
          match active_attacks self !! attack_id with
          | Some entry =>
              write (set_active_attacks
                       (<[attack_id := set_status "stopped" entry]> (active_attacks self)) self)
          | None => raise (KeyError attack_id)
          end
        else ret tt in
      ret success
  | None => ret false
  end.

Definition cleanup_attacks (current_time : Q) (self : t) : t :=
  set_active_attacks
    (sweep ["completed"; "stopped"; "failed"] 600 current_time (active_attacks self)) self.

Definition get_attack_status (attack_id : string) (self : t) : option Job :=
  active_attacks self !! attack_id.

(** What can happen to a cowpatty controller after its construction: start
    requests, calls of [_handle_progress] from monitor threads with any
    event, stop requests and clean-ups, in any order. An exception that a
    request raises goes to its caller; the controller stays as the request
    left it. *)
Inductive op : Type :=
| Start (t0 t1 : Q) (ssid capture_file wordlist : string) (use_precomputation : bool)
    (path_exists : string -> bool)
| Callback (attack_id : string) (info : Info) (now : Q)
| Stop (attack_id : string)
| Cleanup (current_time : Q).

Definition step (st : t * OS) (o : op) : t * OS :=
  match o with
  | Start t0 t1 ssid capture_file wordlist use_precomputation path_exists =>
      let '(_, self', os') :=
        start_optimized_attack t0 t1 ssid capture_file wordlist use_precomputation path_exists
          st.1 st.2 in
      (self', os')
  | Callback attack_id info now => (_handle_progress attack_id info now st.1, st.2)
  | Stop attack_id =>
      let '(_, self', os') := stop_attack attack_id st.1 st.2 in (self', os')
  | Cleanup current_time => (cleanup_attacks current_time st.1, st.2)
  end.

Definition run_ops (ops : list op) (st : t * OS) : t * OS := foldl step st ops.

End AdvancedCowpattyController.

(** ** wifite_integration.py *)

Module WifiteIntegration.

Record t : Type := {
  wifite_available : bool;
  wifite2_available : bool;
  current_process : option nat
}.

(** The dict [patterns], in the order it is written; every search has the
    flag [re.IGNORECASE]. *)
Definition patterns : list (string * regex) :=
  [ ("target_found", lit "[+] " ++ digits1 ++ lit " target(s) found");
    ("attacking", lit "[+] attacking " ++ [Open; Atom Word Plus; Close] ++ lit " on channel "
                  ++ digits1 ++ lit " (" ++ [Open; Atom (Or Word Space) Plus; Close] ++ lit ")");
    ("wps_pin", lit "[+] WPS PIN found: " ++ digits1);
    ("wpa_key", lit "[+] WPA key found: " ++ [Open; Atom (Not Space) Plus; Close]);
    ("wep_key", lit "[+] WEP key found: " ++ [Open; Atom (Not Space) Plus; Close]);
    ("progress", digits1 ++ lit "% complete");
    ("attempts", digits1 ++ lit " attempts remaining") ]%list.

(** What the body of the loop returns for a pattern that matched; [None]
    when no branch of the [if] chain takes the key, and the loop goes on. *)
Definition on_match (key : string) (m : list string) : option (result Info) :=
  if String.eqb key "target_found" then
    Some (g ← group m 1; n ← int_str 10 g;
          Ok [("type", VStr "targets_found"); ("count", VInt n)])
  else if String.eqb key "attacking" then
    Some (encryption ← group m 1;
          g ← group m 2; channel ← int_str 10 g;
          bssid ← group m 3;
          Ok [("type", VStr "attacking"); ("encryption", VStr encryption);
              ("channel", VInt channel); ("bssid", VStr bssid)])
  else if bool_decide (key ∈ ["wps_pin"; "wpa_key"; "wep_key"]) then
    Some (g ← group m 1;
          Ok [("type", VStr "key_found"); ("key_type", VStr key); ("key", VStr g)])
  else if String.eqb key "progress" then
    Some (g ← group m 1; n ← int_str 10 g;
          Ok [("type", VStr "progress"); ("percentage", VInt n)])
  else if String.eqb key "attempts" then
    Some (g ← group m 1; n ← int_str 10 g;
          Ok [("type", VStr "attempts"); ("remaining", VInt n)])
  else None.

(** [for key, pattern in patterns.items(): ...] *)
Fixpoint parse_loop (items : list (string * regex)) (line : string) : result (option Info) :=
  match items with
  | [] => Ok None
  | (key, pattern) :: rest =>
      match search true pattern line with
      | Some m =>
          match on_match key m with
          | Some r => ev ← r; Ok (Some ev)
          | None => parse_loop rest line
          end
      | None => parse_loop rest line
      end
  end.

Definition _parse_progress (line : string) : result (option Info) :=
  parse_loop patterns line.

Definition stop_attack : method t bool :=
  let* self := read in sys (stop_current (current_process self)).

Definition _check_wifite (os : OS) : result bool * OS :=
  let '(r, os') := run (Argv ["wifite"; "--version"]) (Some 5) os in
  match r with
  | Ok result => (Ok (returncode result =? 0)%Z, os')
  | Raise TimeoutExpired | Raise FileNotFoundError => (Ok false, os')
  | Raise e => (Raise e, os')
  end.

Definition _check_wifite2 (os : OS) : result bool * OS :=
  let '(r, os') := run (Argv ["python3"; "-c"; "import wifite"]) (Some 5) os in
  match r with
  | Ok result => (Ok (returncode result =? 0)%Z, os')
  | Raise TimeoutExpired | Raise FileNotFoundError => (Ok false, os')
  | Raise e => (Raise e, os')
  end.

Definition __init__ (os : OS) : result t * OS :=
  let '(r, os') := _check_wifite os in
  match r with
  | Ok wifite =>
      let '(r', os'') := _check_wifite2 os' in
      match r' with
      | Ok wifite2 =>
          (Ok {| wifite_available := wifite; wifite2_available := wifite2;
                 current_process := None |}, os'')
      | Raise e => (Raise e, os'')
      end
  | Raise e => (Raise e, os')
  end.

Definition set_current_process (p : nat) (self : t) : t :=
  {| wifite_available := wifite_available self;
     wifite2_available := wifite2_available self;
     current_process := Some p |}.

(** What the [options] dict of an attack holds: booleans, strings, ints
    and [None]. *)
Inductive optval : Type :=
| OBool (b : bool)
| OStr (s : string)
| OInt (z : Z)
| ONone.

(** [options.get(k)] and [options.get(k, False)] as a condition. *)
Definition truthy (k : string) (options : gmap string optval) : bool :=
  match options !! k with
  | Some (OBool b) => b
  | Some (OStr s) => nonempty s
  | Some (OInt z) => negb (z =? 0)%Z
  | Some ONone | None => false
  end.

(** [str(v)] *)
Definition str_of (v : optval) : string :=
  match v with
  | OBool true => "True"
  | OBool false => "False"
  | OStr s => s
  | OInt z => str_int z
  | ONone => "None"
  end.

(** [options[k]] where [options.get(k)] was true. *)
Definition item (k : string) (options : gmap string optval) : optval := default ONone (options !! k).

(** The list [cmd] that [start_automated_attack] builds. The values of
    ['dictionary'], ['bssid'] and ['essid'] go into it as they are. *)
Definition start_automated_attack_cmd (wifite2 : bool) (interface : string)
    (options : option (gmap string optval)) : list optval :=
  let cmd :=
    if wifite2 then [OStr "python3"; OStr "-c"; OStr "from wifite import main; main()"]
    else [OStr "wifite"] in
  let cmd := (cmd ++ [OStr "-i"; OStr interface])%list in
  match options with
  | Some o =>
      if bool_decide (o = ∅) then cmd
      else
        (cmd
         ++ (if truthy "aggressive" o then [OStr "--aggressive"] else [])
         ++ (if truthy "wps_only" o then [OStr "--wps-only"] else [])
         ++ (if truthy "wep_only" o then [OStr "--wep-only"] else [])
         ++ (if truthy "wpa_only" o then [OStr "--wpa-only"] else [])
         ++ (if truthy "no_wps" o then [OStr "--no-wps"] else [])
         ++ (if truthy "pixie_dust" o then [OStr "--pixie"] else [])
         ++ (if truthy "bully" o then [OStr "--bully"] else [])
         ++ (if truthy "dictionary" o then [OStr "-dict"; item "dictionary" o] else [])
         ++ (if truthy "bssid" o then [OStr "-b"; item "bssid" o] else [])
         ++ (if truthy "channel" o then [OStr "-c"; OStr (str_of (item "channel" o))] else [])
         ++ (if truthy "essid" o then [OStr "-e"; item "essid" o] else []))%list
  | None => cmd
  end.

(** The argument list as [Popen] takes it: every element has to be a
    string. *)
Fixpoint argv (cmd : list optval) : option (list string) :=
  match cmd with
  | [] => Some []
  | OStr s :: rest => option_map (cons s) (argv rest)
  | _ :: _ => None
  end.

Definition start_automated_attack (interface : string) (options : option (gmap string optval))
    : method t nat :=
  let* self := read in
  if negb (wifite_available self || wifite2_available self) then
    raise (RuntimeError "Wifite not available")
  else
    let cmd := start_automated_attack_cmd (wifite2_available self) interface options in
    match argv cmd with
    | Some args =>
        let* p := sys (Popen (Argv args)) in
        let* _ := write (set_current_process p self) in
        ret p
    | None => raise (TypeError "expected str, bytes or os.PathLike object")
    end.

Definition list_available_attacks (self : t) : list string :=
  if wifite_available self || wifite2_available self then
    ["WPS (Pixie Dust)"; "WPS (PIN Brute Force)"; "WPA Handshake Capture";
     "WPA Dictionary Attack"; "WEP Attacks"; "WPA PMKID Attack"]
  else [].

(** [configure_attack(attack_type, **kwargs)]; [config.update(kwargs)]
    lets the keyword arguments win. *)
Definition configure_attack (attack_type : string) (kwargs : gmap string optval) : gmap string optval :=
  let config : gmap string optval :=
    if String.eqb attack_type "WPS (Pixie Dust)" then
      <["wps_only" := OBool true]> (<["pixie_dust" := OBool true]>
        (<["aggressive" := OBool true]> ∅))
    else if String.eqb attack_type "WPS (PIN Brute Force)" then
      <["wps_only" := OBool true]> (<["bully" := OBool true]>
        (<["aggressive" := OBool true]> ∅))
    else if String.eqb attack_type "WPA Dictionary Attack" then
      <["wpa_only" := OBool true]>
        (<["dictionary" := default (OStr "/usr/share/wordlists/rockyou.txt")
                             (kwargs !! "dictionary")]>
           (<["aggressive" := OBool true]> ∅))
    else if String.eqb attack_type "WEP Attacks" then
      <["wep_only" := OBool true]> (<["aggressive" := OBool true]> ∅)
    else if String.eqb attack_type "WPA PMKID Attack" then
      <["wpa_only" := OBool true]> (<["pmkid" := OBool true]>
        (<["aggressive" := OBool true]> ∅))
    else ∅ in
  kwargs ∪ config.

(** [monitor_attack_progress(callback)] with a callback: the arguments of
    the calls the thread makes, in order. *)
Definition monitor_attack_progress (lines : list string) (self : t) : result (list Info) :=
  match current_process self with
  | Some _ => Monitor.monitor _parse_progress [Monitor.completed] lines
  | None => Ok []
  end.

End WifiteIntegration.

Module WifiteController.

Record t : Type := {
  wifite : WifiteIntegration.t;
  active_attacks : gmap string Job
}.

Definition set_wifite (w : WifiteIntegration.t) (self : t) : t :=
  {| wifite := w; active_attacks := active_attacks self |}.

Definition set_active_attacks (m : gmap string Job) (self : t) : t :=
  {| wifite := wifite self; active_attacks := m |}.

Definition on_wifite {A} (m : method WifiteIntegration.t A) : method t A :=
  on_field wifite set_wifite m.

Definition _handle_progress_update (attack_id : string) (info : Info) (now : Q) (self : t) : t :=
  match active_attacks self !! attack_id with
  | Some attack_info =>
      let attack_info := set_last_update now attack_info in
      let attack_info :=
        if get_is "type" "key_found" info then set_status "completed" (set_result info attack_info)
        else if get_is "type" "progress" info then
          set_progress (get_default "percentage" (VInt 0) info) attack_info
        else attack_info in
      set_active_attacks (<[attack_id := attack_info]> (active_attacks self)) self
  | None => self
  end.

Definition stop_attack (attack_id : string) : method t bool :=
  let* self := read in
  match active_attacks self !! attack_id with
  | Some _ =>
      let* success := on_wifite WifiteIntegration.stop_attack in
      let* self := read in
      let* _ :=
        if success then
          match active_attacks self !! attack_id with
          | Some entry =>
              write (set_active_attacks
                       (<[attack_id := set_status "stopped" entry]> (active_attacks self)) self)
          | None => raise (KeyError attack_id)
          end
        else ret tt in
      ret success
  | None => ret false
  end.

Definition cleanup_completed_attacks (current_time : Q) (self : t) : t :=
  set_active_attacks
    (sweep ["completed"; "stopped"] 300 current_time (active_attacks self)) self.

Definition __init__ (os : OS) : result t * OS :=
  let '(r, os') := WifiteIntegration.__init__ os in
  match r with
  | Ok w => (Ok {| wifite := w; active_attacks := ∅ |}, os')
  | Raise e => (Raise e, os')
  end.

(** [f'{bssid}_{int(time.time())}'] *)
Definition attack_id (bssid : string) (t0 : Q) : string := bssid ++ "_" ++ str_int (int_float t0).

(** [start_targeted_attack(interface, bssid, attack_type, **kwargs)]. A
    keyword argument with the name of one of the three parameters makes
    the call itself a [TypeError]. The job dict has no ['status'] key. *)
Definition start_targeted_attack (t0 t1 : Q) (interface bssid attack_type : string)
    (kwargs : gmap string WifiteIntegration.optval) : method t string :=
  if bool_decide (is_Some (kwargs !! "interface") \/ is_Some (kwargs !! "bssid")
                  \/ is_Some (kwargs !! "attack_type")) then
    raise (TypeError "start_targeted_attack() got multiple values for argument")
  else
    let attack_id := attack_id bssid t0 in
    let config :=
      WifiteIntegration.configure_attack attack_type
        (<["bssid" := WifiteIntegration.OStr bssid]> kwargs) in
    try_except
      (let* process :=
         on_wifite (WifiteIntegration.start_automated_attack interface (Some config)) in
       let* self := read in
       let* _ := write (set_active_attacks
                          (<[attack_id :=
                               {| process := process;
                                  details := [("bssid", VStr bssid);
                                              ("attack_type", VStr attack_type)];
                                  strategy := None;
                                  start_time := t1;
                                  status := None;
                                  last_update := None;
                                  progress := None;
                                  job_result := None |}]> (active_attacks self)) self) in
       ret attack_id)
      (fun e => raise (RuntimeError ("Failed to start attack: " ++ exn_str e))).

Definition get_attack_status (attack_id : string) (self : t) : option Job :=
  active_attacks self !! attack_id.

(** What the monitor thread of an attack and the clean-up do between a
    start and a stop request: calls of [_handle_progress_update] and of
    [cleanup_completed_attacks], in any order. *)
Inductive op : Type :=
| Callback (attack_id : string) (info : Info) (now : Q)
| Cleanup (current_time : Q).

Definition step (self : t) (o : op) : t :=
  match o with
  | Callback attack_id info now => _handle_progress_update attack_id info now self
  | Cleanup current_time => cleanup_completed_attacks current_time self
  end.

Definition run_ops (ops : list op) (self : t) : t := foldl step self ops.

End WifiteController.

(** ** mdk_integration.py *)

Module MDKIntegration.

Definition counted (unit_name : string) : regex :=
  (digits1 ++ [Atom Space Plus] ++ lit unit_name)%list.

Definition patterns : list (string * regex) :=
  [ ("packets_sent", counted "packets");
    ("aps_found", counted "APs");
    ("clients_found", counted "clients");
    ("beacons_sent", counted "beacons");
    ("deauths_sent", counted "deauths");
    ("speed", counted "p/s") ].

Fixpoint parse_loop (now : Q) (items : list (string * regex)) (line : string)
    : result (option Info) :=
  match items with
  | [] => Ok None
  | (key, pattern) :: rest =>
      match search true pattern line with
      | Some m =>
          g ← group m 1; n ← int_str 10 g;
          Ok (Some [("type", VStr key); ("value", VInt n); ("timestamp", VFloat now)])
      | None => parse_loop now rest line
      end
  end.

(** [now] is the reading of [time.time()] for ['timestamp']. *)
Definition _parse_progress (now : Q) (line : string) : result (option Info) :=
  parse_loop now patterns line.

End MDKIntegration.

(** ** aircrack_tools.py *)

Module AircrackSuite.

Definition tools : list string :=
  ["aircrack-ng"; "airodump-ng"; "aireplay-ng"; "airmon-ng";
   "airbase-ng"; "airdecap-ng"; "airdecloak-ng"; "airolib-ng";
   "airserv-ng"; "buddy-ng"; "easside-ng"; "tkiptun-ng"; "wesside-ng"].

(** [for tool in tools:] with the [try] inside the loop. *)
Fixpoint check_loop (todo : list string) (status : gmap string bool) (os : OS)
    : result (gmap string bool) * OS :=
  match todo with
  | [] => (Ok status, os)
  | tool :: rest =>
      let '(r, os') := run (Argv [tool; "--help"]) (Some 5) os in
      match r with
      | Ok result => check_loop rest (<[tool := (returncode result =? 0)%Z]> status) os'
      | Raise TimeoutExpired | Raise FileNotFoundError =>
          check_loop rest (<[tool := false]> status) os'
      | Raise e => (Raise e, os')
      end
  end.

Definition _check_tools_availability (os : OS) : result (gmap string bool) * OS :=
  check_loop tools ∅ os.

End AircrackSuite.

(** ** kali_dependency_manager.py *)

Module KaliDependencyManager.

(** [_run_command]: the command is one string and [subprocess.run] gets
    [shell=True]; every exception becomes the exit code -1. *)
Definition _run_command (command : string) (sudo : bool) (os : OS) : (Z * string * string) * OS :=
  let command :=
    if sudo && negb (env_euid (env os) =? 0)%Z then "sudo " ++ command else command in
  let '(r, os') := run (Shell command) (Some 300) os in
  match r with
  | Ok result => ((returncode result, stdout result, stderr result), os')
  | Raise TimeoutExpired => ((-1, "", "Command timed out"), os')
  | Raise e => ((-1, "", exn_str e), os')
  end.

Definition install_package (package_name : string) (os : OS) : bool * OS :=
  let '((exit_code, _, _), os') := _run_command ("apt install -y " ++ package_name) true os in
  ((exit_code =? 0)%Z, os').

(** An entry of [self.required_tools]; the description is only printed. *)
Record tool_info : Type := { package : string; description : string; tools : list string }.

(** [self.required_tools], in the order it is written. Nothing assigns to
    it after [__init__]. *)
Definition required_tools : list (string * tool_info) :=
  [
    ("aircrack-ng", {| package := "aircrack-ng";
                        description := "Complete suite of WiFi cracking tools";
                        tools := ["aircrack-ng"; "airodump-ng"; "aireplay-ng"; "airmon-ng";
                                  "airbase-ng"; "airdecap-ng"; "airdecloak-ng"] |});
    ("wifite", {| package := "wifite";
                   description := "Automated wireless auditor";
                   tools := ["wifite"] |});
    ("cowpatty", {| package := "cowpatty";
                     description := "WPA-PSK dictionary attack tool";
                     tools := ["cowpatty"; "genpmk"] |});
    ("crunch", {| package := "crunch";
                   description := "Wordlist generator";
                   tools := ["crunch"] |});
    ("macchanger", {| package := "macchanger";
                       description := "MAC address spoofing tool";
                       tools := ["macchanger"] |});
    ("mdk3", {| package := "mdk3";
                 description := "WiFi stress testing tool";
                 tools := ["mdk3"] |});
    ("mdk4", {| package := "mdk4";
                 description := "Advanced WiFi testing tool";
                 tools := ["mdk4"] |});
    ("kismet", {| package := "kismet";
                   description := "Wireless network detector and sniffer";
                   tools := ["kismet"; "kismet_server"; "kismet_client"] |});
    ("reaver", {| package := "reaver";
                   description := "WPS brute force attack tool";
                   tools := ["reaver"; "walsh"; "wash"] |});
    ("pixiewps", {| package := "pixiewps";
                     description := "WPS offline PIN recovery tool";
                     tools := ["pixiewps"] |});
    ("hashcat", {| package := "hashcat";
                    description := "Advanced password recovery utility";
                    tools := ["hashcat"] |});
    ("john", {| package := "john";
                 description := "John the Ripper password cracker";
                 tools := ["john"; "johnny"] |});
    ("pyrit", {| package := "pyrit";
                  description := "WPA/WPA2-PSK attack tool";
                  tools := ["pyrit"] |});
    ("tshark", {| package := "tshark";
                   description := "Wireshark CLI packet analyzer";
                   tools := ["tshark"] |});
    ("bettercap", {| package := "bettercap";
                      description := "MITM framework";
                      tools := ["bettercap"] |});
    ("hostapd", {| package := "hostapd";
                    description := "User space IEEE 802.11 AP and authentication server";
                    tools := ["hostapd"] |});
    ("dnsmasq", {| package := "dnsmasq";
                    description := "DNS and DHCP server";
                    tools := ["dnsmasq"] |});
    ("wifiphisher", {| package := "wifiphisher";
                        description := "Automated phishing attacks against WiFi networks";
                        tools := ["wifiphisher"] |});
    ("fluxion", {| package := "fluxion";
                    description := "WiFi social engineering tool";
                    tools := ["fluxion"] |}) ].

Definition python_packages : list string := ["scapy"; "PyQt5"; "requests"; "psutil"; "netifaces"].

(** [self.required_tools[tool_name]], [None] when the key is missing. *)
Definition required_tool (tool_name : string) : option tool_info :=
  snd <$> List.find (fun entry => String.eqb entry.1 tool_name) required_tools.

(** The two fields the methods read and write; [is_kali] is what
    [_detect_kali_linux] found at construction. The texts that the methods
    print are left out. *)
Record t : Type := { is_kali : bool; installed_tools : gmap string bool }.

Definition set_installed (tool_name : string) (b : bool) (self : t) : t :=
  {| is_kali := is_kali self; installed_tools := <[tool_name := b]> (installed_tools self) |}.

Definition check_tool_availability (tool_name : string) (os : OS) : result bool * OS :=
  let '(r, os') := run (Argv [tool_name; "--help"]) (Some 10) os in
  match r with
  | Ok result => (Ok (returncode result =? 0)%Z, os')
  | Raise TimeoutExpired | Raise FileNotFoundError => (Ok false, os')
  | Raise e => (Raise e, os')
  end.

Definition update_package_lists (os : OS) : bool * OS :=
  let '((exit_code, _, _), os') := _run_command "apt update" true os in
  ((exit_code =? 0)%Z, os').

Definition install_python_package (package_name : string) (os : OS) : bool * OS :=
  let '((exit_code, _, _), os') := _run_command ("pip3 install " ++ package_name) true os in
  ((exit_code =? 0)%Z, os').

(** [any(self.check_tool_availability(tool) for tool in names)]: the
    probes stop at the first tool that is there. *)
Fixpoint any_available (names : list string) (os : OS) : result bool * OS :=
  match names with
  | [] => (Ok false, os)
  | tool :: rest =>
      let '(r, os') := check_tool_availability tool os in
      match r with
      | Ok true => (Ok true, os')
      | Ok false => any_available rest os'
      | Raise e => (Raise e, os')
      end
  end.

(** [all(self.check_tool_availability(tool) for tool in names)]: the
    probes stop at the first tool that is missing. *)
Fixpoint all_available (names : list string) (os : OS) : result bool * OS :=
  match names with
  | [] => (Ok true, os)
  | tool :: rest =>
      let '(r, os') := check_tool_availability tool os in
      match r with
      | Ok true => all_available rest os'
      | Ok false => (Ok false, os')
      | Raise e => (Raise e, os')
      end
  end.

Definition check_and_install_tool (tool_name : string) : method t bool :=
  match required_tool tool_name with
  | None => ret false
  | Some info =>
      let* package_available := sys (any_available (tools info)) in
      if package_available : bool then
        let* self := read in
        let* _ := write (set_installed tool_name true self) in
        ret true
      else
        let* success := sys (fun os => let '(b, os') := install_package (package info) os in
                                       (Ok b, os')) in
        if success : bool then
          let* package_available := sys (any_available (tools info)) in
          if package_available : bool then
            let* self := read in
            let* _ := write (set_installed tool_name true self) in
            ret true
          else ret false
        else
          let* self := read in
          let* _ := write (set_installed tool_name false self) in
          ret false
  end.

(** [for i, tool_name in enumerate(tools_to_install, 1): ...] *)
Fixpoint install_loop (tools_to_install : list string) (results : gmap string bool)
    : method t (gmap string bool) :=
  match tools_to_install with
  | [] => ret results
  | tool_name :: rest =>
      let* success := check_and_install_tool tool_name in
      install_loop rest (<[tool_name := success]> results)
  end.

(** [install_all_tools(tools_list)]; an empty list counts as no list. *)
Definition install_all_tools (tools_list : option (list string)) : method t (gmap string bool) :=
  let* self := read in
  if negb (is_kali self) then ret ∅
  else
    let* updated := sys (fun os => let '(b, os') := update_package_lists os in (Ok b, os')) in
    if negb updated then ret ∅
    else
      let tools_to_install :=
        match tools_list with
        | Some (tool_name :: rest) => tool_name :: rest
        | Some [] | None => List.map fst required_tools
        end in
      install_loop tools_to_install ∅.

(** [install_python_dependencies] *)
Fixpoint install_python_loop (packages : list string) (results : gmap string bool) (os : OS)
    : gmap string bool * OS :=
  match packages with
  | [] => (results, os)
  | package :: rest =>
      let '(success, os') := install_python_package package os in
      install_python_loop rest (<[package := success]> results) os'
  end.

Definition install_python_dependencies (os : OS) : gmap string bool * OS :=
  install_python_loop python_packages ∅ os.

(** [verify_all_tools] *)
Fixpoint verify_loop (entries : list (string * tool_info)) (verification_results : gmap string bool)
    (os : OS) : result (gmap string bool) * OS :=
  match entries with
  | [] => (Ok verification_results, os)
  | (tool_name, info) :: rest =>
      let '(r, os') := all_available (tools info) os in
      match r with
      | Ok tools_available =>
          verify_loop rest (<[tool_name := tools_available]> verification_results) os'
      | Raise e => (Raise e, os')
      end
  end.

Definition verify_all_tools (os : OS) : result (gmap string bool) * OS :=
  verify_loop required_tools ∅ os.

End KaliDependencyManager.

(** ** macchanger_integration.py *)

Module MacchangerIntegration.

Record t : Type := {
  macchanger_available : bool;
  original_macs : gmap string string
}.

Definition set_original_macs (m : gmap string string) (self : t) : t :=
  {| macchanger_available := macchanger_available self; original_macs := m |}.

(** [link/ether\s+([0-9a-f:]{17})] *)
Definition ether_re : regex :=
  (lit "link/ether" ++ [Atom Space Plus; Open]
   ++ List.repeat (Atom (Or Digit (Or (Range "a" "f") (Lit ":"))) One) 17 ++ [Close])%list.

(** [try: ... except (TimeoutExpired, FileNotFoundError): pass]; [None]
    says that the block fell through. *)
Definition passing {A} (r : result (option A)) : result (option A) :=
  match r with
  | Raise TimeoutExpired | Raise FileNotFoundError => Ok None
  | _ => r
  end.

Definition get_current_mac (interface : string) : method t (option string) :=
  let* first :=
    sys (fun os =>
      let '(r, os') := run (Argv ["cat"; "/sys/class/net/" ++ interface ++ "/address"]) (Some 5) os in
      (passing (result ← r;
                Ok (if (returncode result =? 0)%Z then Some (strip (stdout result)) else None)),
       os')) in
  match first with
  | Some mac => ret (Some mac)
  | None =>
      let* second :=
        sys (fun os =>
          let '(r, os') := run (Argv ["ip"; "link"; "show"; interface]) (Some 5) os in
          (passing (result ← r;
                    if (returncode result =? 0)%Z then
                      match search true ether_re (stdout result) with
                      | Some m => g ← group m 1; Ok (Some g)
                      | None => Ok None
                      end
                    else Ok None),
           os')) in
      ret second
  end.

Definition backup_original_mac (interface : string) : method t bool :=
  let* current_mac := get_current_mac interface in
  match current_mac with
  | Some mac =>
      if nonempty mac then
        let* self := read in
        let* _ := write (set_original_macs (<[interface := mac]> (original_macs self)) self) in
        ret true
      else ret false
  | None => ret false
  end.

(** [^([0-9A-Fa-f]{2}[:-]){5}([0-9A-Fa-f]{2})$], used with [match]. *)
Definition hex : cclass := Or Digit (Or (Range "A" "F") (Range "a" "f")).
Definition mac_re : regex :=
  (List.concat (List.repeat [Atom hex One; Atom hex One; Atom (Or (Lit ":") (Lit "-")) One] 5)
   ++ [Atom hex One; Atom hex One; Eol])%list.

Definition _validate_mac (mac_address : string) : bool :=
  match match_here false mac_re mac_address with
  | Some _ => true
  | None => false
  end.

Definition _check_macchanger (os : OS) : result bool * OS :=
  let '(r, os') := run (Argv ["macchanger"; "--version"]) (Some 5) os in
  match r with
  | Ok result => (Ok (returncode result =? 0)%Z, os')
  | Raise TimeoutExpired | Raise FileNotFoundError => (Ok false, os')
  | Raise e => (Raise e, os')
  end.

Definition __init__ (os : OS) : result t * OS :=
  let '(r, os') := _check_macchanger os in
  match r with
  | Ok b => (Ok {| macchanger_available := b; original_macs := ∅ |}, os')
  | Raise e => (Raise e, os')
  end.

(** The dict [vendors] of [get_vendor_info] as it is written, two keys
    twice. *)
Definition vendors : list (string * (string * string)) :=
  [
    ("001A11", ("Google", "US"));
    ("0022F1", ("Apple", "US"));
    ("0023DF", ("Apple", "US"));
    ("002436", ("Apple", "US"));
    ("002500", ("Apple", "US"));
    ("00254B", ("Apple", "US"));
    ("00264A", ("Apple", "US"));
    ("0026BB", ("Apple", "US"));
    ("0016CB", ("Apple", "US"));
    ("0017F2", ("Apple", "US"));
    ("0019E3", ("Apple", "US"));
    ("001B63", ("Apple", "US"));
    ("001EC2", ("Apple", "US"));
    ("001F5B", ("Apple", "US"));
    ("001FF3", ("Apple", "US"));
    ("002034", ("Apple", "US"));
    ("0020F2", ("Apple", "US"));
    ("002241", ("Apple", "US"));
    ("002312", ("Apple", "US"));
    ("002332", ("Apple", "US"));
    ("00236C", ("Apple", "US"));
    ("0023E8", ("Apple", "US"));
    ("0024D2", ("Apple", "US"));
    ("00254F", ("Apple", "US"));
    ("0025BC", ("Apple", "US"));
    ("002608", ("Apple", "US"));
    ("00264A", ("Apple", "US"));
    ("0026B0", ("Apple", "US"));
    ("0016C4", ("Cisco", "US"));
    ("00175A", ("Cisco", "US"));
    ("001839", ("Cisco", "US"));
    ("001B2A", ("Cisco", "US"));
    ("001C58", ("Cisco", "US"));
    ("001D4F", ("Cisco", "US"));
    ("001E7A", ("Cisco", "US"));
    ("001FCA", ("Cisco", "US"));
    ("00215C", ("Intel", "US"));
    ("00216B", ("Intel", "US"));
    ("0022FA", ("Intel", "US"));
    ("002314", ("Intel", "US"));
    ("0024D2", ("Intel", "US"));
    ("001F3B", ("Intel", "US"));
    ("A4C494", ("Intel", "US"));
    ("B8B81E", ("Intel", "US"));
    ("002268", ("Microsoft", "US"));
    ("00144F", ("Microsoft", "US"));
    ("0017FA", ("Microsoft", "US"));
    ("0019DB", ("Microsoft", "US"));
    ("001B8F", ("Microsoft", "US"));
    ("001DB7", ("Microsoft", "US"));
    ("001E8F", ("Microsoft", "US"));
    ("0021FE", ("Microsoft", "US"));
    ("00225D", ("Microsoft", "US"));
    ("002369", ("Microsoft", "US"));
    ("0023BE", ("Microsoft", "US"));
    ("00242E", ("Microsoft", "US"));
    ("002438", ("Microsoft", "US"));
    ("0024AF", ("Microsoft", "US"));
    ("002519", ("Microsoft", "US"));
    ("00252F", ("Microsoft", "US"));
    ("0025AD", ("Microsoft", "US"));
    ("0025E5", ("Microsoft", "US"));
    ("00265A", ("Microsoft", "US"));
    ("E0CB4E", ("Microsoft", "US")) ].

(** The dict that a dict display builds: the entries are stored from left
    to right, so of two entries with one key the later one stays. *)
Definition dict_of {A} (entries : list (string * A)) : gmap string A :=
  foldl (fun d entry => <[entry.1 := entry.2]> d) ∅ entries.

Definition get_vendor_info (mac_address : string) : option Info :=
  if negb (_validate_mac mac_address) then None
  else
    let oui := str_upper (str_take 6 (remove_char ":" mac_address)) in
    match dict_of vendors !! oui with
    | Some (vendor, country) => Some [("vendor", VStr vendor); ("country", VStr country)]
    | None => Some [("vendor", VStr "Unknown"); ("country", VStr "Unknown")]
    end.

(** [set_mac_address(self, interface, mac_address)]. Only [TimeoutExpired]
    is caught. *)
Definition set_mac_address (interface mac_address : string) : method t bool :=
  let* self := read in
  if negb (macchanger_available self) then ret false
  else if negb (_validate_mac mac_address) then ret false
  else
    try_except
      (let* _ := sys (run (Argv ["ip"; "link"; "set"; interface; "down"]) (Some 10)) in
       let* result := sys (run (Argv ["macchanger"; "-m"; mac_address; interface]) (Some 15)) in
       let* _ := sys (run (Argv ["ip"; "link"; "set"; interface; "up"]) (Some 10)) in
       ret (returncode result =? 0)%Z)
      (fun e => match e with
                | TimeoutExpired => ret false
                | _ => raise e
                end).

Definition restore_original_mac (interface : string) : method t bool :=
  let* self := read in
  match original_macs self !! interface with
  | Some mac => set_mac_address interface mac
  | None => ret false
  end.

(** A call of [self.set_mac_address] with positional arguments [args]:
    the two parameters after [self] are bound, or the call raises
    [TypeError] before the body runs. *)
Definition call_set_mac_address (args : list string) : method t bool :=
  match args with
  | [interface; mac_address] => set_mac_address interface mac_address
  | [] | [_] =>
      raise (TypeError "set_mac_address() missing required positional arguments")
  | _ =>
      raise (TypeError ("set_mac_address() takes 3 positional arguments but "
                        ++ str_int (Z.of_nat (S (List.length args))) ++ " were given"))
  end.

(** [''.join(random.choices(population, k=k))]; [draw i] is the [i]-th
    random draw, reduced to an index into the population. *)
Definition choices (population : string) (k : nat) (draw : nat -> nat) : string :=
  string_of_list_ascii
    (List.map (fun i => default "0"%char
                          (String.get (draw i mod String.length population) population))
              (List.seq 0 k)).

Definition generate_random_mac (vendor_prefix : option string) (draw : nat -> nat)
    : result string :=
  let vendor :=
    match vendor_prefix with
    | Some v => if nonempty v && (String.length v =? 8)%nat then Some v else None
    | None => None
    end in
  let prefix :=
    match vendor with
    | Some v => remove_char ":" v
    | None => choices "0123456789abcdef" 6 draw
    end in
  first_byte ← int_str 16 (str_take 2 prefix);
  let first_byte := Z.land first_byte 254 in
  let first_byte := Z.lor first_byte 2 in
  let prefix := format_02x first_byte ++ str_drop 2 prefix in
  let suffix := choices "0123456789abcdef" 6 (fun i => draw (6 + i)%nat) in
  Ok (str_take 2 prefix ++ ":" ++ str_take 2 (str_drop 2 prefix) ++ ":"
      ++ str_take 2 (str_drop 4 prefix) ++ ":" ++ str_take 2 suffix ++ ":"
      ++ str_take 2 (str_drop 2 suffix) ++ ":" ++ str_take 2 (str_drop 4 suffix)).

Definition spoof_random_mac (interface : string) (draw : nat -> nat) : method t (option string) :=
  let* random_mac := of_result (generate_random_mac None draw) in
  let* ok := call_set_mac_address [interface; random_mac] in
  if ok then ret (Some random_mac) else ret None.

(** [if self.set_mac_address(interface, interface, vendor_mac):] *)
Definition spoof_vendor_mac (interface vendor_code : string) (draw : nat -> nat)
    : method t (option string) :=
  let* vendor_mac := of_result (generate_random_mac (Some vendor_code) draw) in
  let* ok := call_set_mac_address [interface; interface; vendor_mac] in
  if ok then ret (Some vendor_mac) else ret None.

End MacchangerIntegration.

Module AdvancedMacSpoofingController.

Record t : Type := {
  macchanger : MacchangerIntegration.t;
  active_spoofs : gmap string Info
}.

Definition set_macchanger (m : MacchangerIntegration.t) (self : t) : t :=
  {| macchanger := m; active_spoofs := active_spoofs self |}.

Definition set_active_spoofs (m : gmap string Info) (self : t) : t :=
  {| macchanger := macchanger self; active_spoofs := m |}.

Definition on_macchanger {A} (m : method MacchangerIntegration.t A) : method t A :=
  on_field macchanger set_macchanger m.

(** [spoof_specific_vendor]; [t0] and [t1] are the readings of
    [time.time()] for the id and for ['start_time']. *)
Definition spoof_specific_vendor (t0 t1 : Q) (interface vendor_code : string)
    (draw : nat -> nat) : method t (option string) :=
  let spoof_id := "vendor_" ++ interface ++ "_" ++ str_int (int_float t0) in
  let* backed_up := on_macchanger (MacchangerIntegration.backup_original_mac interface) in
  if backed_up then
    let* new_mac := on_macchanger (MacchangerIntegration.spoof_vendor_mac interface vendor_code draw) in
    match new_mac with
    | Some mac =>
        if nonempty mac then
          let* self := read in
          let* _ := write (set_active_spoofs
                             (<[spoof_id := [("interface", VStr interface);
                                             ("type", VStr "vendor_spoof");
                                             ("vendor_code", VStr vendor_code);
                                             ("new_mac", VStr mac);
                                             ("start_time", VFloat t1);
                                             ("status", VStr "active")]]> (active_spoofs self))
                             self) in
          ret (Some spoof_id)
        else ret None
    | None => ret None
    end
  else ret None.

End AdvancedMacSpoofingController.

Module MacSpoofingAnalyzer.

(** The dict [analysis]; its four keys are fixed. *)
Record analysis : Type := {
  is_multicast : bool;
  is_locally_administered : bool;
  is_globally_unique : bool;
  vendor_info : option Info
}.

(** [bool(n & mask)] *)
Definition bit_set (n mask : Z) : bool := negb (Z.land n mask =? 0)%Z.

Definition analyze_mac_pattern (mac_address : string) : result analysis :=
  if MacchangerIntegration._validate_mac mac_address then
    first_byte ← int_str 16 (str_take 2 (remove_char ":" mac_address));
    Ok {| is_multicast := bit_set first_byte 1;
          is_locally_administered := bit_set first_byte 2;
          is_globally_unique := true;
          vendor_info := MacchangerIntegration.get_vendor_info mac_address |}
  else
    Ok {| is_multicast := false; is_locally_administered := false;
          is_globally_unique := true; vendor_info := None |}.

End MacSpoofingAnalyzer.

(** ** Statements: tables of matchers, operation sequences, environments *)

(** The parser as the specification words it: an ordered list of matchers,
    the first one whose pattern matches yields the event. *)
Module Matchers.

Record matcher : Type := {
  m_ignorecase : bool;
  m_pattern : regex;
  m_event : list string -> result Info
}.

Definition matched (m : matcher) (line : string) : option (list string) :=
  search (m_ignorecase m) (m_pattern m) line.

Fixpoint first_match (ms : list matcher) (line : string) : result (option Info) :=
  match ms with
  | [] => Ok None
  | m :: rest =>
      match matched m line with
      | Some g => ev ← m_event m g; Ok (Some ev)
      | None => first_match rest line
      end
  end.

(** An event with one counter: [{'type': kind, field: int(group(1))}]. *)
Definition counter (kind field : string) (g : list string) : result Info :=
  d ← group g 1; n ← int_str 10 d; Ok [("type", VStr kind); (field, VInt n)].

Definition crunch : list matcher :=
  [ {| m_ignorecase := false; m_pattern := CrunchIntegration.percent_re;
       m_event := counter "progress" "percentage" |};
    {| m_ignorecase := true; m_pattern := CrunchIntegration.words_re;
       m_event := counter "words_generated" "count" |} ].

Definition cowpatty : list matcher :=
  [ {| m_ignorecase := true; m_pattern := CowpattyIntegration.key_re;
       m_event := fun g => d ← group g 1; n ← int_str 10 d;
                           Ok [("type", VStr "key_found"); ("key_index", VInt n);
                               ("status", VStr "success")] |};
    {| m_ignorecase := false; m_pattern := CowpattyIntegration.progress_re;
       m_event := counter "progress" "percentage" |};
    {| m_ignorecase := true; m_pattern := CowpattyIntegration.tested_re;
       m_event := counter "passphrases_tested" "count" |} ].

Definition wifite_entry (entry : string * regex) : matcher :=
  {| m_ignorecase := true; m_pattern := entry.2;
     m_event := fun g => default (Raise (KeyError entry.1)) (WifiteIntegration.on_match entry.1 g) |}.

Definition wifite : list matcher := List.map wifite_entry WifiteIntegration.patterns.

Definition mdk_entry (now : Q) (entry : string * regex) : matcher :=
  {| m_ignorecase := true; m_pattern := entry.2;
     m_event := fun g => d ← group g 1; n ← int_str 10 d;
                         Ok [("type", VStr entry.1); ("value", VInt n); ("timestamp", VFloat now)] |}.

Definition mdk (now : Q) : list matcher := List.map (mdk_entry now) MDKIntegration.patterns.

(** The event a line is expected to give: that of the first matcher that
    matches it, none when no matcher does. *)
Definition expected (ms : list matcher) (line : string) : option Info :=
  match first_match ms line with
  | Ok o => o
  | Raise _ => None
  end.

(** A matcher whose event can be built from whatever its pattern matched,
    and is a non-empty dict. *)
Definition safe (m : matcher) : Prop :=
  forall line g, matched m line = Some g -> exists ev, m_event m g = Ok ev /\ ev <> [].

(** [parse] is the first-match parser of the table [ms]:
    - a line that no pattern matches yields no event and no error;
    - a line yields the event of the first matcher whose pattern matches;
    - so every line yields the expected event or none, without an error;
    - and a sequence of lines yields the expected events in line order. *)
Definition parses_by_first_match (parse : string -> result (option Info)) (ms : list matcher)
    : Prop :=
  (forall line, Forall (fun m => matched m line = None) ms -> parse line = Ok None) /\
  (forall line pre m post g,
     ms = (pre ++ m :: post)%list ->
     Forall (fun m' => matched m' line = None) pre ->
     matched m line = Some g ->
     exists ev, m_event m g = Ok ev /\ parse line = Ok (Some ev)) /\
  (forall line, parse line = Ok (expected ms line)) /\
  (forall lines,
     Monitor.deliver parse lines
     = Ok (omap (fun line => expected ms (strip line)) (List.filter nonempty lines))).

End Matchers.

(** Kinds of answers of the environment. *)
Module Outcomes.

(** What a probe is written for: the tool ran to an exit code, the probe
    timed out, or there is no such executable. *)
Definition foreseen (r : result completed) : Prop :=
  match r with
  | Ok _ | Raise TimeoutExpired | Raise FileNotFoundError => True
  | Raise _ => False
  end.

Definition no_tool (r : result completed) : Prop :=
  r = Raise TimeoutExpired \/ r = Raise FileNotFoundError.

(** What an aircrack probe of [tool] answers when [subprocess.run] answers
    [r]. *)
Definition exit_zero (r : result completed) : bool :=
  match r with
  | Ok c => (returncode c =? 0)%Z
  | Raise _ => false
  end.

(** A live child process that the caller owns: both signals are delivered,
    and waiting for it either returns its exit code or times out. *)
Definition obedient (e : Env) (p : nat) : Prop :=
  (forall h, env_terminate e h p = None) /\
  (forall h, env_kill e h p = None) /\
  (forall h, match env_wait e h p with
             | Ok _ | Raise TimeoutExpired => True
             | Raise _ => False
             end).

Definition is_argv (l : launch) : bool :=
  match l with
  | Argv _ => true
  | Shell _ => false
  end.

(** Between [before] and [after] every command went to the launcher as an
    argument list. *)
Definition only_argv (before after : OS) : Prop :=
  exists new, log after = (log before ++ new)%list /\ forallb is_argv (launches new) = true.

End Outcomes.

(** The size crunch would write: the sum of [charset_size ^ l] for [l] from
    [min_length] to [max_length]. *)
Module Size.

Fixpoint sum_from (charset_size : Z) (first : Z) (how_many : nat) : Z :=
  match how_many with
  | O => 0
  | S n => charset_size ^ first + sum_from charset_size (first + 1) n
  end.

Definition sum_powers (charset_size min_length max_length : Z) : Z :=
  sum_from charset_size min_length (Z.to_nat (max_length + 1 - min_length)).

End Size.

(** What can happen to the jobs of a crunch controller once they are
    started: callbacks from the monitor thread and stop requests, in any
    order. *)
Module Lifecycle.

Inductive op : Type :=
| Progress (id : string) (info : Info) (now : Q)   (* callback with a parsed event *)
| Completion (id : string) (now : Q)               (* the monitor's last callback *)
| Stop (id : string).                              (* stop_generation(id) *)

Definition state : Type := AdvancedCrunchController.t * OS.

Definition step (st : state) (o : op) : state :=
  match o with
  | Progress id info now => (AdvancedCrunchController._handle_progress id info now st.1, st.2)
  | Completion id now =>
      (AdvancedCrunchController._handle_progress id Monitor.completed now st.1, st.2)
  | Stop id =>
      let '(_, self', os') := AdvancedCrunchController.stop_generation id st.1 st.2 in
      (self', os')
  end.

Definition run_ops (ops : list op) (st : state) : state := foldl step st ops.

Definition status_of (id : string) (self : AdvancedCrunchController.t) : option string :=
  AdvancedCrunchController.active_generations self !! id ≫= status.

End Lifecycle.

(** Concrete environments and objects for the examples. *)
Module Scenario.

(** Every command succeeds at once and prints nothing; processes obey. *)
Definition quiet : Env :=
  {| env_run := fun _ _ => Ok {| returncode := 0; stdout := ""; stderr := "" |};
     env_popen := fun _ _ => None;
     env_terminate := fun _ _ => None;
     env_wait := fun _ _ => Ok 0;
     env_kill := fun _ _ => None;
     env_euid := 1000 |}.

(** As [quiet], but [subprocess.run] answers [r]. *)
Definition running (r : result completed) : Env :=
  {| env_run := fun _ _ => r;
     env_popen := env_popen quiet;
     env_terminate := env_terminate quiet;
     env_wait := env_wait quiet;
     env_kill := env_kill quiet;
     env_euid := env_euid quiet |}.

(** As [quiet], but a process ignores [terminate] for the whole grace
    period. *)
Definition stubborn : Env :=
  {| env_run := env_run quiet;
     env_popen := env_popen quiet;
     env_terminate := env_terminate quiet;
     env_wait := fun _ _ => Raise TimeoutExpired;
     env_kill := env_kill quiet;
     env_euid := env_euid quiet |}.

Definition boot (e : Env) : OS := {| env := e; log := [] |}.

Definition crunch_on : CrunchIntegration.t :=
  {| CrunchIntegration.crunch_available := true; CrunchIntegration.current_process := None |}.

(** A crunch integration whose process is the handle 0. *)
Definition crunch_running : CrunchIntegration.t :=
  {| CrunchIntegration.crunch_available := true; CrunchIntegration.current_process := Some 0%nat |}.

Definition crunch_off : CrunchIntegration.t :=
  {| CrunchIntegration.crunch_available := false; CrunchIntegration.current_process := None |}.

Definition controller (c : CrunchIntegration.t) : AdvancedCrunchController.t :=
  {| AdvancedCrunchController.crunch := c; AdvancedCrunchController.active_generations := ∅ |}.

Definition home_network : Info := [("ssid", VStr "HomeNet"); ("bssid", VStr "00:11:22:33:44:55")].

Definition job (st : string) (lu : option Q) : Job :=
  {| process := 0; details := []; strategy := None; start_time := 0;
     status := Some st; last_update := lu; progress := None; job_result := None |}.

(** A crunch controller whose only job was completed at time 0. *)
Definition one_completed : AdvancedCrunchController.t :=
  {| AdvancedCrunchController.crunch := crunch_on;
     AdvancedCrunchController.active_generations := {["crunch_0" := job "completed" (Some 0%Q)]} |}.

(** Two start requests in the same second, 0.2 s and 0.7 s after
    1700000000, on a machine with crunch. *)
Definition first_start : result string * AdvancedCrunchController.t * OS :=
  AdvancedCrunchController.start_smart_wordlist_generation (17000000002 # 10) (17000000002 # 10)
    home_network "/tmp/first.txt" (controller crunch_on) (boot quiet).

Definition second_start : result string * AdvancedCrunchController.t * OS :=
  AdvancedCrunchController.start_smart_wordlist_generation (17000000007 # 10) (17000000007 # 10)
    home_network "/tmp/second.txt" first_start.1.2 first_start.2.

(** The first job is stopped one second after its start; the monitor
    thread then sees that the process has ended. *)
Definition stopped_then_completed : list Lifecycle.op :=
  [Lifecycle.Stop "crunch_1700000000";
   Lifecycle.Completion "crunch_1700000000" (17000000012 # 10)].

Definition macchanger_on : MacchangerIntegration.t :=
  {| MacchangerIntegration.macchanger_available := true;
     MacchangerIntegration.original_macs := ∅ |}.

Definition spoofer : AdvancedMacSpoofingController.t :=
  {| AdvancedMacSpoofingController.macchanger := macchanger_on;
     AdvancedMacSpoofingController.active_spoofs := ∅ |}.

(** Reading the address file of the interface succeeds. *)
Definition with_address : Env :=
  running (Ok {| returncode := 0; stdout := "00:11:22:33:44:55" ++ String "010"%char "";
                 stderr := "" |}).

(** A random source that always draws 0. *)
Definition zeros : nat -> nat := fun _ => 0%nat.

(** What the call in [spoof_vendor_mac] raises. *)
Definition arity_error : exn :=
  TypeError "set_mac_address() takes 3 positional arguments but 4 were given".

End Scenario.

Import Matchers Lifecycle Size Outcomes.

(** ** Statements about the rest of the modules *)

(** Runs of characters of one kind inside a string, which is what the
    patterns [\d{8}] and [[A-Z]{3,}] look for. *)
Module Runs.

Fixpoint str_all (p : ascii -> bool) (s : string) : bool :=
  match s with
  | EmptyString => true
  | String a s' => p a && str_all p s'
  end.

Definition has_run (p : ascii -> bool) (n : nat) (s : string) : Prop :=
  exists pre d post, s = pre ++ d ++ post /\ String.length d = n /\ str_all p d = true.

End Runs.

Import Runs.

(** Kinds of requests to the wifite controller. *)
Module Attacks.

(** A callback for the attack [attack_id] that does not report a key, or
    any clean-up. *)
Definition no_key_for (attack_id : string) (o : WifiteController.op) : Prop :=
  match o with
  | WifiteController.Callback id info _ =>
      id = attack_id -> get_is "type" "key_found" info = false
  | WifiteController.Cleanup _ => True
  end.

(** The keys of the options that [start_automated_attack] looks at. *)
Definition read_keys : list string :=
  ["aggressive"; "wps_only"; "wep_only"; "wpa_only"; "no_wps"; "pixie_dust"; "bully";
   "dictionary"; "bssid"; "channel"; "essid"].

End Attacks.

Import Attacks.

(** Concrete objects for the examples of this part. *)
Module Cases.

(** A crunch controller after two start requests: the job [crunch_1] owns
    the process 0, the job [crunch_2] the process 1, and the integration
    holds the handle of the process started last. *)
Definition two_generations : AdvancedCrunchController.t :=
  {| AdvancedCrunchController.crunch :=
       {| CrunchIntegration.crunch_available := true;
          CrunchIntegration.current_process := Some 1%nat |};
     AdvancedCrunchController.active_generations :=
       <["crunch_1" := {| process := 0; details := [("output_file", VStr "/tmp/a.txt")];
                          strategy := None; start_time := 1; status := Some "running";
                          last_update := None; progress := None; job_result := None |}]>
         (<["crunch_2" := {| process := 1; details := [("output_file", VStr "/tmp/b.txt")];
                             strategy := None; start_time := 2; status := Some "running";
                             last_update := None; progress := None; job_result := None |}]> ∅) |}.

(** The clock of the monitor thread: the call number [i] is made at time
    [10 + i]. *)
Definition ticking (i : nat) : Q := inject_Z (10 + Z.of_nat i).

(** A cowpatty controller with one running attack, whose process is the
    handle 0. *)
Definition cowpatty_running : CowpattyIntegration.t :=
  {| CowpattyIntegration.cowpatty_available := true;
     CowpattyIntegration.genpmk_available := true;
     CowpattyIntegration.current_process := Some 0%nat |}.

Definition one_attack : AdvancedCowpattyController.t :=
  {| AdvancedCowpattyController.cowpatty := cowpatty_running;
     AdvancedCowpattyController.active_attacks :=
       {["cowpatty_home_7" :=
           {| process := 0;
              details := [("ssid", VStr "home"); ("capture_file", VStr "/tmp/h.cap");
                          ("wordlist", VStr "/tmp/w.txt")];
              strategy := None; start_time := 7; status := Some "running";
              last_update := None; progress := None; job_result := None |}]} |}.

(** A machine with [genpmk] but without a working [cowpatty]. *)
Definition genpmk_only : AdvancedCowpattyController.t :=
  {| AdvancedCowpattyController.cowpatty :=
       {| CowpattyIntegration.cowpatty_available := false;
          CowpattyIntegration.genpmk_available := true;
          CowpattyIntegration.current_process := None |};
     AdvancedCowpattyController.active_attacks := ∅ |}.

(** The last output of an attack that found the passphrase. *)
Definition key_output : string := "KEY FOUND [ 3 ] hunter2" ++ String "010"%char "".

(** A wifite controller on a machine with the original wifite only. *)
Definition wifite_on : WifiteController.t :=
  {| WifiteController.wifite :=
       {| WifiteIntegration.wifite_available := true;
          WifiteIntegration.wifite2_available := false;
          WifiteIntegration.current_process := None |};
     WifiteController.active_attacks := ∅ |}.

End Cases.

(** ** The primitives on concrete values *)

Example str_int_ex : str_int 1700000000 = "1700000000" /\ str_int 0 = "0" /\ str_int (-5) = "-5".
Proof. repeat split; reflexivity. Qed.

Example int_float_ex : int_float (17002 # 10) = 1700 /\ int_float (- (15 # 10)) = -1.
Proof. split; reflexivity. Qed.

Example int_str_ex :
  int_str 10 "042" = Ok 42 /\ int_str 16 "fE" = Ok 254 /\ int_str 16 " a" = Ok 10 /\
  int_str 16 "0x" = Raise (ValueError "invalid literal for int(): 0x") /\
  int_str 16 "-f" = Ok (-15) /\ is_ok (int_str 16 "zz") = false /\
  is_ok (int_str 10 "1__0") = false /\ int_str 10 "1_0" = Ok 10.
Proof. repeat split; reflexivity. Qed.

Example strip_ex : strip "  42% " = "42%" /\ strip "   " = "" /\ strip "a b" = "a b".
Proof. repeat split; reflexivity. Qed.

Example search_percent : search false (digits1 ++ lit "%")%list "crunch:  42% completed" = Some ["42"].
Proof. reflexivity. Qed.

Example search_backtrack :
  search true (digits1 ++ [Atom Space Plus] ++ lit "passphrase" ++ [Atom (Lit "s") Opt; Atom Space Plus] ++ lit "tested")%list
         "key no. 1200 Passphrases  tested so far" = Some ["1200"].
Proof. reflexivity. Qed.

Example search_none : search true (digits1 ++ lit "% complete")%list "nothing here 12 %" = None.
Proof. reflexivity. Qed.

(** ** Facts about the Python primitives *)

Lemma bind_ok {A B} (a : A) (k : A -> result B) : (Ok a ≫= k) = k a.
Proof. reflexivity. Qed.

Ltac by_cases_on_ascii a :=
  destruct a as [[|] [|] [|] [|] [|] [|] [|] [|]]; vm_compute; try reflexivity; try discriminate;
  intuition (try discriminate; try congruence).

Lemma digit_not_space (a : ascii) : is_digit a = true -> is_space a = false.
Proof. by_cases_on_ascii a. Qed.

Lemma digit_not_sign (a : ascii) :
  is_digit a = true -> a <> "-"%char /\ a <> "+"%char /\ Ascii.eqb a "_" = false.
Proof. by_cases_on_ascii a. Qed.

Lemma digit_value_10 (a : ascii) :
  is_digit a = true -> exists d, digit_value 10 a = Some d /\ 0 <= d < 10.
Proof.
  destruct a as [[|] [|] [|] [|] [|] [|] [|] [|]]; vm_compute; try discriminate;
    intros _; eexists; (split; [reflexivity | split; discriminate || reflexivity]).
Qed.

Lemma accepts_digit (ic : bool) (a : ascii) : accepts ic Digit a = true -> is_digit a = true.
Proof. destruct ic; by_cases_on_ascii a. Qed.

Lemma rstrip_digits (s : string) : all_digits s = true -> rstrip s = s.
Proof.
  induction s as [|a s IH]; [reflexivity|].
  simpl. intros [Ha Hs]%andb_prop. rewrite (IH Hs).
  destruct s; [|reflexivity]. by rewrite (digit_not_space _ Ha).
Qed.

Lemma strip_digits (s : string) : all_digits s = true -> strip s = s.
Proof.
  intros H. unfold strip.
  destruct s as [|a s]; [reflexivity|].
  simpl in H. apply andb_prop in H as [Ha Hs].
  cbn [lstrip]. rewrite (digit_not_space _ Ha).
  apply rstrip_digits. simpl. by rewrite Ha, Hs.
Qed.

Lemma int_digits_numeral (s : string) (prev : bool) (acc : Z) :
  all_digits s = true -> s <> "" \/ prev = true -> 0 <= acc ->
  exists n, int_digits 10 prev acc s = Some n /\ 0 <= n.
Proof.
  revert prev acc. induction s as [|a s IH]; intros prev acc Hs Hne Hacc.
  - destruct Hne as [Hne | ->]; [done|]. by exists acc.
  - simpl in Hs. apply andb_prop in Hs as [Ha Hs]. cbn [int_digits].
    destruct (digit_not_sign _ Ha) as (_ & _ & ->).
    destruct (digit_value_10 _ Ha) as (d & -> & Hd).
    apply IH; [done | by right | lia].
Qed.

(** [int(s)] succeeds on a string of digits. *)
Lemma int_str_numeral (s : string) : numeral s -> exists n, int_str 10 s = Ok n /\ 0 <= n.
Proof.
  intros [Hne Hs]. unfold int_str. rewrite (strip_digits _ Hs).
  destruct s as [|a s]; [done|].
  pose proof Hs as Hs'. simpl in Hs'. apply andb_prop in Hs' as [Ha _].
  destruct (digit_not_sign _ Ha) as (Hm & Hp & _).
  destruct (int_digits_numeral (String a s) false 0 Hs) as (n & Hn & Hn0); [by left | lia |].
  destruct a as [[|] [|] [|] [|] [|] [|] [|] [|]]; try (by exfalso; (apply Hm || apply Hp));
    cbn -[int_digits]; cbn -[int_digits] in Hn; rewrite Hn; by exists n.
Qed.

(** ** Facts about the regex fragment *)

Section ReFacts.
Context (ic : bool).

Lemma append_cons (a : ascii) (s t : string) : String a s ++ t = String a (s ++ t).
Proof. reflexivity. Qed.

Lemma append_empty_r (s : string) : s ++ "" = s.
Proof. induction s as [|a s IH]; [done|]. by rewrite append_cons, IH. Qed.

Lemma append_assoc (s1 s2 s3 : string) : (s1 ++ s2) ++ s3 = s1 ++ (s2 ++ s3).
Proof. induction s1 as [|a s1 IH]; [done|]. by rewrite !append_cons, IH. Qed.

(** What a greedy repetition returns is what its continuation returned,
    for a chunk grown by accepted characters only. *)
Lemma many_rest (c : cclass) (rest : string -> string -> option (list string))
    (s chunk : string) (r : list string) :
  many ic c rest chunk s = Some r ->
  exists extra s', all_accepted ic c extra = true /\ rest (chunk ++ extra) s' = Some r.
Proof.
  revert chunk. induction s as [|a s IH]; intros chunk H; cbn [many] in H.
  - exists "", "". by rewrite append_empty_r.
  - destruct (accepts ic c a) eqn:Ha.
    + destruct (many ic c rest (snoc chunk a) s) as [r'|] eqn:Hm.
      * injection H as <-. destruct (IH _ Hm) as (extra & s' & Hx & Hr).
        exists (String a extra), s'. split; [by simpl; rewrite Ha|].
        unfold snoc in Hr. by rewrite append_assoc in Hr.
      * exists "", (String a s). by rewrite append_empty_r.
    + exists "", (String a s). by rewrite append_empty_r.
Qed.

(** Every atom consumed characters of its class, and at least one unless
    it is optional. *)
Lemma match_here_chunks (re : regex) (s : string) (chunks : list string) :
  match_here ic re s = Some chunks -> Forall2 (chunk_ok ic) (atoms re) chunks.
Proof.
  revert s chunks. induction re as [|p re IH]; intros s chunks H.
  - injection H as <-. constructor.
  - destruct p as [c q| | |]; cbn [match_here atoms] in *.
    + assert (Hrest : forall chunk s' r,
                 (match match_here ic re s' with
                  | Some chunks0 => Some (chunk :: chunks0)
                  | None => None
                  end) = Some r ->
                 exists chunks0, r = chunk :: chunks0 /\ Forall2 (chunk_ok ic) (atoms re) chunks0).
      { intros chunk s' r Hr. destruct (match_here ic re s') as [chunks0|] eqn:Hm; [|done].
        injection Hr as <-. eauto. }
      destruct q.
      * destruct s as [|a s]; [done|]. destruct (accepts ic c a) eqn:Ha; [|done].
        apply Hrest in H as (chunks0 & -> & Hf). constructor; [|done].
        split; [by simpl; rewrite Ha | done].
      * assert (Hnone : forall r, (match match_here ic re s with
                                   | Some chunks0 => Some ("" :: chunks0)
                                   | None => None
                                   end) = Some r -> Forall2 (chunk_ok ic) ((c, Opt) :: atoms re) r).
        { intros r Hr. apply Hrest in Hr as (chunks0 & -> & Hf). by constructor. }
        destruct s as [|a s]; [by apply Hnone|].
        destruct (accepts ic c a) eqn:Ha; [|by apply Hnone].
        destruct (match_here ic re s) as [chunks0|] eqn:Hm.
        -- injection H as <-. constructor; [|by eapply IH].
           split; [by simpl; rewrite Ha | done].
        -- by apply Hnone.
      * apply many_rest in H as (extra & s' & Hx & Hr).
        apply Hrest in Hr as (chunks0 & -> & Hf). by constructor.
      * destruct s as [|a s]; [done|]. destruct (accepts ic c a) eqn:Ha; [|done].
        apply many_rest in H as (extra & s' & Hx & Hr).
        apply Hrest in Hr as (chunks0 & -> & Hf). constructor; [|done].
        split; [by simpl; rewrite Ha | done].
    + by eapply IH.
    + by eapply IH.
    + destruct s as [|a s]; [by eapply IH|].
      destruct a as [[|] [|] [|] [|] [|] [|] [|] [|]]; try done.
      destruct s; [by eapply IH | done].
Qed.

Lemma join_snoc (chunks : list string) (ch : string) :
  join (chunks ++ [ch]) = join chunks ++ ch.
Proof.
  induction chunks as [|x chunks IH]; simpl.
  - by rewrite append_empty_r.
  - by rewrite IH, append_assoc.
Qed.

Lemma groups_ok (re : regex) (chunks : list string) :
  Forall2 (chunk_ok ic) (atoms re) chunks ->
  forall cur inside, in_step ic cur inside ->
  Forall2 (group_ok ic) (group_atoms re inside) (groups re chunks cur).
Proof.
  revert chunks. induction re as [|p re IH]; intros chunks Hf cur inside Hstep.
  - constructor.
  - destruct p as [c q| | |]; cbn [atoms group_atoms groups] in *.
    + inversion Hf as [|? ch ? chunks' Hch Hf']; subst.
      apply IH; [done|].
      destruct cur as [g|], inside as [l|]; try done. simpl.
      destruct Hstep as (chunks0 & Hf0 & ->).
      exists (chunks0 ++ [ch])%list. split.
      * apply Forall2_app; [done | by constructor].
      * by rewrite join_snoc.
    + apply IH; [done|]. simpl. exists []. split; [constructor | done].
    + destruct cur as [g|], inside as [l|]; try done.
      * constructor; [done|]. by apply IH.
      * by apply IH.
    + by apply IH.
Qed.

Lemma search_match_here (re : regex) (s : string) (g : list string) :
  search ic re s = Some g ->
  exists s' chunks, match_here ic re s' = Some chunks /\ g = groups re chunks None.
Proof.
  induction s as [|a s IH]; cbn [search].
  - destruct (match_here ic re "") as [chunks|] eqn:Hm; [|done].
    intros [= <-]. eauto.
  - destruct (match_here ic re (String a s)) as [chunks|] eqn:Hm.
    + intros [= <-]. eauto.
    + done.
Qed.

(** The groups of a match hold what the atoms inside them accept. *)
Lemma search_groups (re : regex) (s : string) (g : list string) :
  search ic re s = Some g -> Forall2 (group_ok ic) (group_atoms re None) g.
Proof.
  intros (s' & chunks & Hm & ->)%search_match_here.
  apply groups_ok; [by eapply match_here_chunks | done].
Qed.

Lemma all_accepted_digit (s : string) : all_accepted ic Digit s = true -> all_digits s = true.
Proof.
  induction s as [|a s IH]; [done|]. simpl. intros [Ha Hs]%andb_prop.
  by rewrite (accepts_digit _ _ Ha), IH.
Qed.

(** [(\d+)] captures a numeral. *)
Lemma group_numeral (g : string) : group_ok ic [(Digit, Plus)] g -> numeral g.
Proof.
  intros (chunks & Hf & ->).
  inversion Hf as [|? ch ? chunks' [Hall Hne] Hf']; subst. inversion Hf'; subst.
  simpl in *. rewrite append_empty_r. split; [done | by apply all_accepted_digit].
Qed.

End ReFacts.

(** ** The progress parsers *)

Section FirstMatch.
Context (parse : string -> result (option Info)) (ms : list matcher).
Hypothesis refines : forall line, parse line = first_match ms line.
Hypothesis all_safe : Forall safe ms.

Lemma first_match_none (l : list matcher) (line : string) :
  Forall (fun m => matched m line = None) l -> first_match l line = Ok None.
Proof.
  induction 1 as [|m l Hm _ IH]; [done|]. cbn [first_match]. by rewrite Hm.
Qed.

Lemma first_match_first (pre post : list matcher) (m : matcher) (line : string)
    (g : list string) (ev : Info) :
  Forall (fun m' => matched m' line = None) pre ->
  matched m line = Some g -> m_event m g = Ok ev ->
  first_match (pre ++ m :: post) line = Ok (Some ev).
Proof.
  induction 1 as [|m' pre Hm' _ IH]; intros Hm Hev.
  - cbn [app first_match]. by rewrite Hm, Hev.
  - cbn [app first_match]. rewrite Hm'. by apply IH.
Qed.

Lemma first_match_safe (l : list matcher) (line : string) :
  Forall safe l ->
  exists o, first_match l line = Ok o /\ (forall ev, o = Some ev -> ev <> []).
Proof.
  induction 1 as [|m l Hm _ IH]; cbn [first_match].
  - by exists None.
  - destruct (matched m line) as [g|] eqn:Hg; [|done].
    destruct (Hm _ _ Hg) as (ev & -> & Hne). exists (Some ev). split; [done|].
    by intros ? [= <-].
Qed.

Lemma first_match_expected (line : string) : first_match ms line = Ok (expected ms line).
Proof.
  unfold expected. by destruct (first_match_safe ms line all_safe) as (o & -> & _).
Qed.

Lemma deliver_expected (lines : list string) :
  Monitor.deliver parse lines
  = Ok (omap (fun line => expected ms (strip line)) (List.filter nonempty lines)).
Proof.
  induction lines as [|line lines IH]; [done|].
  cbn [Monitor.deliver List.filter]. unfold nonempty at 1.
  destruct (String.eqb line "") eqn:He; cbn [negb]; [done|].
  rewrite refines, IH.
  destruct (first_match_safe ms (strip line) all_safe) as (o & Ho & Hne).
  assert (Hexp : expected ms (strip line) = o) by (unfold expected; by rewrite Ho).
  rewrite Ho, !bind_ok. cbn [omap list_omap]. rewrite Hexp.
  destruct o as [ev|]; [|done].
  rewrite bool_decide_eq_false_2; [done | by apply Hne].
Qed.

Lemma first_match_parser : parses_by_first_match parse ms.
Proof.
  repeat split.
  - intros line H. rewrite refines. by apply first_match_none.
  - intros line pre m post g -> Hpre Hm.
    apply Forall_app in all_safe as [_ Hs]. apply Forall_cons in Hs as [Hs _].
    destruct (Hs _ _ Hm) as (ev & Hev & _). exists ev. split; [done|].
    rewrite refines. by eapply first_match_first.
  - intros line. rewrite refines. apply first_match_expected.
  - apply deliver_expected.
Qed.

End FirstMatch.

(** The events of the tables can always be built. *)

Lemma group_1 (g : string) (rest : list string) : group (g :: rest) 1 = Ok g.
Proof. reflexivity. Qed.

Lemma counter_numeral (kind field d : string) (rest : list string) :
  numeral d -> exists ev, counter kind field (d :: rest) = Ok ev /\ ev <> [].
Proof.
  intros (n & Hn & _)%int_str_numeral. unfold counter. rewrite group_1. cbn.
  rewrite Hn. cbn. eauto.
Qed.

(** From a match of a concrete pattern to the shape of its groups. *)
Ltac groups_of H :=
  apply search_groups in H; vm_compute group_atoms in H;
  repeat match goal with
         | F : Forall2 _ (_ :: _) _ |- _ => inversion F; subst; clear F
         | F : Forall2 _ [] _ |- _ => inversion F; subst; clear F
         end;
  repeat match goal with
         | G : group_ok _ [(Digit, Plus)] _ |- _ => apply group_numeral in G
         end.

Lemma crunch_safe : Forall safe Matchers.crunch.
Proof.
  repeat constructor; intros line g H; unfold matched in H; cbn in H; groups_of H;
    by apply counter_numeral.
Qed.

Lemma cowpatty_safe : Forall safe Matchers.cowpatty.
Proof.
  repeat constructor; intros line g H; unfold matched in H; cbn in H; groups_of H;
    try (by apply counter_numeral).
  match goal with G : numeral _ |- _ => apply int_str_numeral in G as (n & Hn & _) end.
  cbn. rewrite Hn. cbn. eauto.
Qed.

Lemma wifite_safe : Forall safe Matchers.wifite.
Proof.
  repeat constructor; intros line g H; unfold matched in H; cbn in H; groups_of H;
    repeat match goal with
           | G : numeral _ |- _ => apply int_str_numeral in G as (? & ? & _)
           end;
    cbn;
    repeat match goal with
           | E : int_str 10 _ = Ok _ |- _ => rewrite E; clear E
           end;
    cbn; eauto.
Qed.

Lemma mdk_safe (now : Q) : Forall safe (Matchers.mdk now).
Proof.
  repeat constructor; intros line g H; unfold matched in H; cbn in H; groups_of H;
    match goal with G : numeral _ |- _ => apply int_str_numeral in G as (n & Hn & _) end;
    cbn; rewrite Hn; cbn; eauto.
Qed.

(** The parsers of the sources try their patterns the way the tables say. *)

Lemma crunch_refines (line : string) :
  CrunchIntegration._parse_progress line = first_match Matchers.crunch line.
Proof.
  unfold CrunchIntegration._parse_progress, Matchers.crunch, first_match, matched, counter.
  cbn [m_ignorecase m_pattern m_event].
  repeat match goal with
         | |- context [search ?ic ?re line] => destruct (search ic re line) as [g|]
         | |- context [group ?m 1] => destruct (group m 1) as [d|]; cbn
         | |- context [int_str 10 ?d] => destruct (int_str 10 d); cbn
         end; reflexivity.
Qed.

Lemma cowpatty_refines (line : string) :
  CowpattyIntegration._parse_progress line = first_match Matchers.cowpatty line.
Proof.
  unfold CowpattyIntegration._parse_progress, Matchers.cowpatty, first_match, matched, counter.
  cbn [m_ignorecase m_pattern m_event].
  repeat match goal with
         | |- context [search ?ic ?re line] => destruct (search ic re line) as [g|]
         | |- context [group ?m 1] => destruct (group m 1) as [d|]; cbn
         | |- context [int_str 10 ?d] => destruct (int_str 10 d); cbn
         end; reflexivity.
Qed.

Lemma wifite_loop_refines (items : list (string * regex)) (line : string) :
  Forall (fun entry => forall m, is_Some (WifiteIntegration.on_match entry.1 m)) items ->
  WifiteIntegration.parse_loop items line = first_match (List.map wifite_entry items) line.
Proof.
  induction 1 as [|[key pattern] items Hkey _ IH]; [done|].
  cbn [WifiteIntegration.parse_loop List.map first_match].
  unfold matched at 1. cbn [wifite_entry m_ignorecase m_pattern m_event fst snd].
  destruct (search true pattern line) as [m|]; [|done].
  destruct (Hkey m) as [r Hr]. cbn in Hr. by rewrite Hr.
Qed.

Lemma wifite_refines (line : string) :
  WifiteIntegration._parse_progress line = first_match Matchers.wifite line.
Proof.
  apply wifite_loop_refines.
  repeat constructor; intros m; cbn; eauto.
Qed.

Lemma mdk_loop_refines (now : Q) (items : list (string * regex)) (line : string) :
  MDKIntegration.parse_loop now items line = first_match (List.map (mdk_entry now) items) line.
Proof.
  induction items as [|[key pattern] items IH]; [done|].
  cbn [MDKIntegration.parse_loop List.map first_match].
  unfold matched at 1. cbn [mdk_entry m_ignorecase m_pattern m_event fst snd].
  destruct (search true pattern line) as [m|]; [|done].
  destruct (group m 1) as [d|]; cbn; [|done].
  by destruct (int_str 10 d).
Qed.



(** The scenario of the specification: the line [42%] gives a progress
    event with percentage 42, and lines come out in order. *)
Example parse_42 :
  CrunchIntegration._parse_progress "42%" = Ok (Some [("type", VStr "progress"); ("percentage", VInt 42)]).
Proof. reflexivity. Qed.

Example cowpatty_lines :
  Monitor.deliver CowpattyIntegration._parse_progress
    ["Collected all necessary data"; ""; "key no. 1000: 1000 passphrases tested  ";
     "  12% done"; "The PSK is: Key Found [ 7 ]"]
  = Ok [ [("type", VStr "passphrases_tested"); ("count", VInt 1000)];
         [("type", VStr "progress"); ("percentage", VInt 12)];
         [("type", VStr "key_found"); ("key_index", VInt 7); ("status", VStr "success")] ].
Proof. vm_compute. reflexivity. Qed.

Example wifite_lines :
  Monitor.deliver WifiteIntegration._parse_progress
    ["[+] 3 target(s) found"; "[+] Attacking WPA on channel 6 (Home Net)";
     "noise"; "[+] WPA key found: hunter2"]
  = Ok [ [("type", VStr "targets_found"); ("count", VInt 3)];
         [("type", VStr "attacking"); ("encryption", VStr "WPA"); ("channel", VInt 6);
          ("bssid", VStr "Home Net")];
         [("type", VStr "key_found"); ("key_type", VStr "wpa_key"); ("key", VStr "hunter2")] ].
Proof. vm_compute. reflexivity. Qed.

(** ** The word-list size estimate *)

Lemma range_unfold (a : Z) (n : nat) :
  CrunchIntegration.range a (a + Z.of_nat (S n)) = a :: CrunchIntegration.range (a + 1) (a + 1 + Z.of_nat n).
Proof.
  unfold CrunchIntegration.range.
  replace (a + Z.of_nat (S n) - a) with (Z.succ (Z.of_nat n)) by lia.
  replace (a + 1 + Z.of_nat n - (a + 1)) with (Z.of_nat n) by lia.
  rewrite seqZ_cons by lia. f_equal. f_equal; lia.
Qed.

Lemma estimate_loop_exact (c : Z) (n : nat) (first total : Z) :
  0 <= first ->
  CrunchIntegration.estimate_loop c total (CrunchIntegration.range first (first + Z.of_nat n))
  = CrunchIntegration.Exact (total + sum_from c first n).
Proof.
  revert first total. induction n as [|n IH]; intros first total Hfirst.
  - unfold CrunchIntegration.range. rewrite seqZ_nil by lia. cbn. f_equal. lia.
  - rewrite range_unfold. cbn [CrunchIntegration.estimate_loop sum_from].
    destruct (Z.leb_spec 0 first); [|lia].
    rewrite IH by lia. f_equal. lia.
Qed.

(** The sum is a geometric one. *)
Lemma sum_from_geometric (c : Z) (n : nat) (first : Z) :
  0 <= first ->
  (c - 1) * sum_from c first n = c ^ (first + Z.of_nat n) - c ^ first.
Proof.
  revert first. induction n as [|n IH]; intros first Hfirst.
  - cbn [sum_from]. replace (first + Z.of_nat 0) with first by lia. lia.
  - cbn [sum_from]. rewrite Z.mul_add_distr_l, IH by lia.
    replace (first + Z.of_nat (S n)) with (first + 1 + Z.of_nat n) by lia.
    rewrite (Z.pow_add_r c first 1) by lia. lia.
Qed.

(** C9, as amended. For every [charset_size] and every [min_length] and
    [max_length] with [0 <= min_length], or with [max_length < min_length],
    [estimate_wordlist_size] returns exactly the sum of [charset_size ^ l]
    for [l] from [min_length] to [max_length], in exact integer arithmetic,
    and leaves [self] as it was; the sum is 0 when
    [max_length < min_length]; and it is the geometric sum: multiplied by
    [charset_size - 1] it is
    [charset_size ^ (max_length + 1) - charset_size ^ min_length]. *)
Theorem estimate_wordlist_size_exact (min_length max_length charset_size : Z)
    (self : CrunchIntegration.t) :
  0 <= min_length \/ max_length < min_length ->
  CrunchIntegration.estimate_wordlist_size min_length max_length charset_size self
  = (CrunchIntegration.Exact (sum_powers charset_size min_length max_length), self) /\
  (max_length < min_length -> sum_powers charset_size min_length max_length = 0) /\
  (0 <= min_length <= max_length + 1 ->
   (charset_size - 1) * sum_powers charset_size min_length max_length
   = charset_size ^ (max_length + 1) - charset_size ^ min_length).
Proof.
  intros Hdom. unfold CrunchIntegration.estimate_wordlist_size, sum_powers.
  split; [|split].
  - f_equal. destruct (Z.lt_ge_cases max_length min_length) as [Hlt | Hge].
    + unfold CrunchIntegration.range. rewrite seqZ_nil by lia.
      replace (Z.to_nat (max_length + 1 - min_length)) with O by lia. reflexivity.
    + destruct Hdom as [Hmin | Hlt]; [|lia].
      replace (max_length + 1)
        with (min_length + Z.of_nat (Z.to_nat (max_length + 1 - min_length))) at 1 by lia.
      by rewrite estimate_loop_exact.
  - intros Hlt. by replace (Z.to_nat (max_length + 1 - min_length)) with O by lia.
  - intros [Hmin Hmax]. rewrite sum_from_geometric by lia. do 2 f_equal. lia.
Qed.

Lemma estimate_wordlist_size_exact_witness :
  ((0 <= 4 \/ 6 < 4) /\
   CrunchIntegration.estimate_wordlist_size 4 6 10 Scenario.crunch_on
   = (CrunchIntegration.Exact 1110000, Scenario.crunch_on) /\
   (10 - 1) * sum_powers 10 4 6 = 10 ^ (6 + 1) - 10 ^ 4) /\
  ((0 <= 5 \/ 3 < 5) /\
   CrunchIntegration.estimate_wordlist_size 5 3 26 Scenario.crunch_on
   = (CrunchIntegration.Exact 0, Scenario.crunch_on) /\
   sum_powers 26 5 3 = 0).
Proof.
  assert (H1 : 0 <= 4 \/ 6 < 4) by (left; lia).
  assert (H2 : 0 <= 5 \/ 3 < 5) by (left; lia).
  destruct (estimate_wordlist_size_exact 4 6 10 Scenario.crunch_on H1) as (E1 & _ & G1).
  destruct (estimate_wordlist_size_exact 5 3 26 Scenario.crunch_on H2) as (E2 & Z2 & _).
  split; (split; [assumption|]); split.
  - exact E1.
  - apply G1. lia.
  - rewrite E2. rewrite Z2 by lia. reflexivity.
  - apply Z2. lia.
Defined.

(** C9 as stated fails below zero: with [charset_size = 0] the loop
    raises [ZeroDivisionError], and with any other one it leaves integer
    arithmetic. *)
Lemma estimate_wordlist_size_negative_length :
  (CrunchIntegration.estimate_wordlist_size (-1) 1 0 Scenario.crunch_on).1
    = CrunchIntegration.DivisionByZero /\
  (CrunchIntegration.estimate_wordlist_size (-1) 1 10 Scenario.crunch_on).1
    = CrunchIntegration.Inexact /\
  ~ (forall min_length max_length charset_size self,
       (CrunchIntegration.estimate_wordlist_size min_length max_length charset_size self).1
       = CrunchIntegration.Exact (sum_powers charset_size min_length max_length)).
Proof.
  split; [reflexivity|]. split; [reflexivity|].
  intros H. specialize (H (-1) 1 0 Scenario.crunch_on). discriminate H.
Qed.

(** ** The availability probes *)

Lemma check_loop_status (todo : list string) (status : gmap string bool) (os : OS) :
  (forall h tool, foreseen (env_run (env os) h (Argv [tool; "--help"]))) ->
  exists status' os',
    AircrackSuite.check_loop todo status os = (Ok status', os') /\
    env os' = env os /\
    forall tool,
      (tool ∈ todo ->
       exists h, status' !! tool = Some (exit_zero (env_run (env os) h (Argv [tool; "--help"])))) /\
      (tool ∉ todo -> status' !! tool = status !! tool).
Proof.
  revert status os. induction todo as [|t todo IH]; intros status os Hos.
  - exists status, os. split; [done|]. split; [done|].
    intros tool. split; [by intros ?%elem_of_nil | done].
  - cbn [AircrackSuite.check_loop run].
    pose proof (Hos (log os) t) as Ht.
    set (o := env_run (env os) (log os) (Argv [t; "--help"])) in *.
    assert (Hstep : exists b, b = exit_zero o /\
              (let '(r, os') := (o, record (SRun (Argv [t; "--help"]) (Some 5)) os) in
               match r with
               | Ok result =>
                   AircrackSuite.check_loop todo (<[t:=(returncode result =? 0)%Z]> status) os'
               | Raise TimeoutExpired | Raise FileNotFoundError =>
                   AircrackSuite.check_loop todo (<[t:=false]> status) os'
               | Raise e => (Raise e, os')
               end)
              = AircrackSuite.check_loop todo (<[t:=b]> status)
                  (record (SRun (Argv [t; "--help"]) (Some 5)) os)).
    { exists (exit_zero o). split; [done|]. destruct o as [c|[]]; try done. }
    destruct Hstep as (b & Hb & ->).
    destruct (IH (<[t:=b]> status) (record (SRun (Argv [t; "--help"]) (Some 5)) os) Hos)
      as (status' & os' & -> & Henv & Hlook).
    exists status', os'. split; [done|]. split; [done|].
    intros tool. split.
    + intros Hin. destruct (decide (tool ∈ todo)) as [Hlater | Hnot].
      * by apply Hlook.
      * apply elem_of_cons in Hin as [-> | ?]; [|done].
        exists (log os). rewrite (proj2 (Hlook t) Hnot), lookup_insert_eq, Hb. done.
    + intros Hnot. apply not_elem_of_cons in Hnot as [Hne Hnot].
      rewrite (proj2 (Hlook tool) Hnot). by rewrite lookup_insert_ne.
Qed.

(** C7, as amended. For every outcome of the probe command that is an exit
    code, a time-out or a missing executable, the probe returns a boolean
    and lets no exception escape: [False] for a time-out and for a missing
    executable; for an exit code, [True] exactly for code 0 (crunch and the
    aircrack tools), or [True] for any code (cowpatty). The probe runs the
    tool once, as an argument list, with a 5-second limit. *)
Theorem probes_return_booleans (os : OS) :
  (let o := env_run (env os) (log os) (Argv ["crunch"; "-h"]) in
   (CrunchIntegration._check_crunch os).2 = record (SRun (Argv ["crunch"; "-h"]) (Some 5)) os /\
   (foreseen o ->
    exists b, (CrunchIntegration._check_crunch os).1 = Ok b /\
              (no_tool o -> b = false) /\ b = exit_zero o)) /\
  (let o := env_run (env os) (log os) (Argv ["cowpatty"]) in
   (CowpattyIntegration._check_cowpatty os).2 = record (SRun (Argv ["cowpatty"]) (Some 5)) os /\
   (foreseen o ->
    exists b, (CowpattyIntegration._check_cowpatty os).1 = Ok b /\
              (no_tool o -> b = false) /\ (forall c, o = Ok c -> b = true))) /\
  ((forall h tool, foreseen (env_run (env os) h (Argv [tool; "--help"]))) ->
   exists status,
     (AircrackSuite._check_tools_availability os).1 = Ok status /\
     forall tool, tool ∈ AircrackSuite.tools ->
       exists h, status !! tool = Some (exit_zero (env_run (env os) h (Argv [tool; "--help"])))).
Proof.
  split; [|split].
  - cbn zeta. unfold CrunchIntegration._check_crunch, run.
    destruct (env_run (env os) (log os) (Argv ["crunch"; "-h"])) as [c|e] eqn:Ho.
    + split; [done|].
      intros _. eexists. split; [done|]. split; [by intros [H|H] | done].
    + destruct e; cbn; (split; [done|]);
        first [by intros [] | (intros _; exists false; split; [done|]; split; done)].
  - cbn zeta. unfold CowpattyIntegration._check_cowpatty, run.
    destruct (env_run (env os) (log os) (Argv ["cowpatty"])) as [c|e] eqn:Ho.
    + split; [done|].
      intros _. eexists. split; [done|]. split; [by intros [H|H] | done].
    + destruct e; cbn; (split; [done|]);
        first [by intros [] | (intros _; exists false; split; [done|]; split; done)].
  - intros Hos. unfold AircrackSuite._check_tools_availability.
    destruct (check_loop_status AircrackSuite.tools ∅ os Hos) as (status & os' & -> & _ & Hlook).
    exists status. split; [done|]. intros tool Hin. by apply Hlook.
Qed.

Lemma probes_return_booleans_witness :
  (foreseen (env_run Scenario.quiet [] (Argv ["crunch"; "-h"])) /\
   exists b, (CrunchIntegration._check_crunch (Scenario.boot Scenario.quiet)).1 = Ok b /\
             (no_tool (env_run Scenario.quiet [] (Argv ["crunch"; "-h"])) -> b = false) /\
             b = exit_zero (env_run Scenario.quiet [] (Argv ["crunch"; "-h"]))) /\
  (foreseen (env_run (Scenario.running (Raise FileNotFoundError)) [] (Argv ["cowpatty"])) /\
   exists b, (CowpattyIntegration._check_cowpatty
                (Scenario.boot (Scenario.running (Raise FileNotFoundError)))).1 = Ok b /\
             (no_tool (env_run (Scenario.running (Raise FileNotFoundError)) []
                         (Argv ["cowpatty"])) -> b = false) /\
             (forall c, env_run (Scenario.running (Raise FileNotFoundError)) []
                          (Argv ["cowpatty"]) = Ok c -> b = true)) /\
  ((forall h tool, foreseen (env_run (Scenario.running (Raise TimeoutExpired)) h
                               (Argv [tool; "--help"]))) /\
   exists status,
     (AircrackSuite._check_tools_availability
        (Scenario.boot (Scenario.running (Raise TimeoutExpired)))).1 = Ok status /\
     forall tool, tool ∈ AircrackSuite.tools ->
       exists h, status !! tool
                 = Some (exit_zero (env_run (Scenario.running (Raise TimeoutExpired)) h
                                      (Argv [tool; "--help"])))).
Proof.
  split; [|split].
  - split; [exact I|].
    apply (proj2 (proj1 (probes_return_booleans (Scenario.boot Scenario.quiet)))). exact I.
  - split; [exact I|].
    apply (proj2 (proj1 (proj2 (probes_return_booleans
                                  (Scenario.boot (Scenario.running (Raise FileNotFoundError))))))).
    exact I.
  - assert (H : forall h tool, foreseen (env_run (Scenario.running (Raise TimeoutExpired)) h
                                           (Argv [tool; "--help"]))) by (intros h tool; exact I).
    split; [exact H|].
    exact (proj2 (proj2 (probes_return_booleans
                           (Scenario.boot (Scenario.running (Raise TimeoutExpired))))) H).
Defined.

(** No executable, a time-out, and a file that may not be executed. *)
Example probe_outcomes :
  (CrunchIntegration._check_crunch (Scenario.boot (Scenario.running (Raise FileNotFoundError)))).1
    = Ok false /\
  (CowpattyIntegration._check_cowpatty (Scenario.boot (Scenario.running (Raise TimeoutExpired)))).1
    = Ok false /\
  (CowpattyIntegration._check_cowpatty
     (Scenario.boot (Scenario.running (Ok {| returncode := 1; stdout := ""; stderr := "usage" |})))).1
    = Ok true.
Proof. repeat split; reflexivity. Qed.

(** C7 as stated fails: [subprocess.run] raises [PermissionError]
    for a file on the path that may not be executed, the probes catch only
    [TimeoutExpired] and [FileNotFoundError], and the exception escapes. *)
Lemma probe_lets_permission_error_escape :
  (CrunchIntegration._check_crunch (Scenario.boot (Scenario.running (Raise PermissionError)))).1
    = Raise PermissionError /\
  (CowpattyIntegration._check_cowpatty (Scenario.boot (Scenario.running (Raise PermissionError)))).1
    = Raise PermissionError /\
  (AircrackSuite._check_tools_availability
     (Scenario.boot (Scenario.running (Raise PermissionError)))).1
    = Raise PermissionError /\
  ~ (forall os, exists b, (CrunchIntegration._check_crunch os).1 = Ok b).
Proof.
  repeat split; try reflexivity.
  intros H. destruct (H (Scenario.boot (Scenario.running (Raise PermissionError)))) as [b Hb].
  discriminate Hb.
Qed.

(** ** How commands reach the launcher *)

Lemma launches_app (l1 l2 : list syscall) : launches (l1 ++ l2) = (launches l1 ++ launches l2)%list.
Proof. unfold launches. apply omap_app. Qed.

Lemma generate_wordlist_log (min_length max_length : Z) (charset output_file : string)
    (pattern : option string) (opts : CrunchIntegration.options)
    (self : CrunchIntegration.t) (os : OS) :
  log (CrunchIntegration.generate_wordlist min_length max_length charset output_file pattern opts
         self os).2
  = (log os ++
     if CrunchIntegration.crunch_available self then
       [SPopen (Argv (CrunchIntegration.generate_wordlist_cmd min_length max_length charset
                        output_file pattern opts))]
     else [])%list.
Proof.
  unfold CrunchIntegration.generate_wordlist, Method.bind, read, sys, write, ret, raise, Popen.
  destruct (CrunchIntegration.crunch_available self); cbn.
  - by destruct (env_popen (env os) (log os) _).
  - by rewrite app_nil_r.
Qed.

Lemma only_argv_refl (os : OS) : only_argv os os.
Proof. exists []. by rewrite app_nil_r. Qed.

Lemma only_argv_trans (os1 os2 os3 : OS) : only_argv os1 os2 -> only_argv os2 os3 -> only_argv os1 os3.
Proof.
  intros (n1 & H1 & A1) (n2 & H2 & A2). exists (n1 ++ n2)%list. split.
  - by rewrite H2, H1, app_assoc.
  - by rewrite launches_app, forallb_app, A1, A2.
Qed.

Ltac solve_only_argv :=
  unfold only_argv; cbn [log record snd]; rewrite <- ?app_assoc;
  eexists; split; reflexivity.

Lemma only_argv_run (args : list string) (timeout : option Z) (os : OS) :
  only_argv os (run (Argv args) timeout os).2.
Proof. by exists [SRun (Argv args) timeout]. Qed.

Lemma only_argv_Popen (args : list string) (os : OS) : only_argv os (Popen (Argv args) os).2.
Proof.
  exists [SPopen (Argv args)]. unfold Popen. by destruct (env_popen (env os) (log os) _).
Qed.

Lemma check_loop_only_argv (todo : list string) (status : gmap string bool) (os : OS) :
  only_argv os (AircrackSuite.check_loop todo status os).2.
Proof.
  revert status os. induction todo as [|tool todo IH]; intros status os; [apply only_argv_refl|].
  cbn [AircrackSuite.check_loop].
  pose proof (only_argv_run [tool; "--help"] (Some 5) os) as Hrun.
  destruct (run (Argv [tool; "--help"]) (Some 5) os) as [[result|e] os'] eqn:Hr; cbn [snd] in Hrun.
  - eapply only_argv_trans; [exact Hrun | apply IH].
  - destruct e; try done; (eapply only_argv_trans; [exact Hrun | apply IH]).
Qed.

Lemma get_current_mac_only_argv (interface : string) (self : MacchangerIntegration.t) (os : OS) :
  only_argv os (MacchangerIntegration.get_current_mac interface self os).2.
Proof.
  unfold MacchangerIntegration.get_current_mac, Method.bind, sys, ret, run.
  destruct (MacchangerIntegration.passing _) as [[mac|]|e]; cbn.
  - solve_only_argv.
  - destruct (MacchangerIntegration.passing _) as [second|e]; solve_only_argv.
  - solve_only_argv.
Qed.

Lemma set_mac_address_only_argv (interface mac_address : string)
    (self : MacchangerIntegration.t) (os : OS) :
  only_argv os (MacchangerIntegration.set_mac_address interface mac_address self os).2.
Proof.
  unfold MacchangerIntegration.set_mac_address, try_except, Method.bind, read, sys, ret, raise, run.
  destruct (negb (MacchangerIntegration.macchanger_available self)); [apply only_argv_refl|].
  destruct (negb (MacchangerIntegration._validate_mac mac_address)); [apply only_argv_refl|].
  cbn.
  repeat match goal with
         | |- context [env_run ?e ?h ?c] => destruct (env_run e h c) as [?|[]]; cbn
         end;
    solve_only_argv.
Qed.



Example crunch_launch :
  launches (log (CrunchIntegration.generate_wordlist 4 6 "0123456789" "/tmp/test numeric.txt"
                   None CrunchIntegration.no_options Scenario.crunch_on
                   (Scenario.boot Scenario.quiet)).2)
  = [Argv ["crunch"; "4"; "6"; "0123456789"; "-o"; "/tmp/test numeric.txt"]].
Proof. reflexivity. Qed.


(** ** Stopping a process *)

Lemma stop_current_obedient (p : nat) (os : OS) :
  obedient (env os) p ->
  (stop_current (Some p) os).1 = Ok true /\
  env (stop_current (Some p) os).2 = env os /\
  log (stop_current (Some p) os).2
  = (log os ++ match env_wait (env os) (log os ++ [STerminate p]) p with
               | Ok _ => [STerminate p; SWait p (Some 5)]
               | Raise _ => [STerminate p; SWait p (Some 5); SKill p]
               end)%list.
Proof.
  intros (Hterm & Hkill & Hwait).
  unfold stop_current, terminate, wait, kill. rewrite Hterm. cbn.
  specialize (Hwait (log os ++ [STerminate p])%list).
  destruct (env_wait (env os) (log os ++ [STerminate p]) p) as [rc|e]; cbn.
  - by rewrite <- !app_assoc.
  - destruct e; try done. cbn. rewrite Hkill. cbn. by rewrite <- !app_assoc.
Qed.

(** C6. A stop request with a live process handle that the caller owns
    calls [terminate], waits at most 5 seconds, calls [kill] if the wait
    timed out and only then, and returns [True]; a stop request without a
    handle returns [False] without raising and without touching anything.
    This holds for [CrunchIntegration.stop_generation] and for the
    [stop_attack] of the wifite and cowpatty integrations. *)
Theorem stop_requests :
  (forall self os p,
     CrunchIntegration.current_process self = Some p -> obedient (env os) p ->
     let '(r, self', os') := CrunchIntegration.stop_generation self os in
     r = Ok true /\ self' = self /\
     log os' = (log os ++ match env_wait (env os) (log os ++ [STerminate p]) p with
                          | Ok _ => [STerminate p; SWait p (Some 5)]
                          | Raise _ => [STerminate p; SWait p (Some 5); SKill p]
                          end)%list) /\
  (forall self os,
     CrunchIntegration.current_process self = None ->
     CrunchIntegration.stop_generation self os = (Ok false, self, os)) /\
  (forall self os p,
     WifiteIntegration.current_process self = Some p -> obedient (env os) p ->
     let '(r, self', os') := WifiteIntegration.stop_attack self os in
     r = Ok true /\ self' = self /\
     log os' = (log os ++ match env_wait (env os) (log os ++ [STerminate p]) p with
                          | Ok _ => [STerminate p; SWait p (Some 5)]
                          | Raise _ => [STerminate p; SWait p (Some 5); SKill p]
                          end)%list) /\
  (forall self os,
     WifiteIntegration.current_process self = None ->
     WifiteIntegration.stop_attack self os = (Ok false, self, os)) /\
  (forall self os p,
     CowpattyIntegration.current_process self = Some p -> obedient (env os) p ->
     let '(r, self', os') := CowpattyIntegration.stop_attack self os in
     r = Ok true /\ self' = self /\
     log os' = (log os ++ match env_wait (env os) (log os ++ [STerminate p]) p with
                          | Ok _ => [STerminate p; SWait p (Some 5)]
                          | Raise _ => [STerminate p; SWait p (Some 5); SKill p]
                          end)%list) /\
  (forall self os,
     CowpattyIntegration.current_process self = None ->
     CowpattyIntegration.stop_attack self os = (Ok false, self, os)).
Proof.
  repeat apply conj.
  - intros self os p Hp Hob.
    unfold CrunchIntegration.stop_generation, Method.bind, read, sys. rewrite Hp.
    destruct (stop_current_obedient p os Hob) as (Hr & _ & Hl).
    destruct (stop_current (Some p) os) as [r os']. by cbn in *.
  - intros self os Hp.
    unfold CrunchIntegration.stop_generation, Method.bind, read, sys. by rewrite Hp.
  - intros self os p Hp Hob.
    unfold WifiteIntegration.stop_attack, Method.bind, read, sys. rewrite Hp.
    destruct (stop_current_obedient p os Hob) as (Hr & _ & Hl).
    destruct (stop_current (Some p) os) as [r os']. by cbn in *.
  - intros self os Hp.
    unfold WifiteIntegration.stop_attack, Method.bind, read, sys. by rewrite Hp.
  - intros self os p Hp Hob.
    unfold CowpattyIntegration.stop_attack, Method.bind, read, sys. rewrite Hp.
    destruct (stop_current_obedient p os Hob) as (Hr & _ & Hl).
    destruct (stop_current (Some p) os) as [r os']. by cbn in *.
  - intros self os Hp.
    unfold CowpattyIntegration.stop_attack, Method.bind, read, sys. by rewrite Hp.
Qed.

Lemma stop_requests_witness :
  (CrunchIntegration.current_process Scenario.crunch_running = Some 0%nat /\
   obedient Scenario.stubborn 0 /\
   let '(r, self', os') :=
     CrunchIntegration.stop_generation Scenario.crunch_running (Scenario.boot Scenario.stubborn) in
   r = Ok true /\ self' = Scenario.crunch_running /\
   log os' = [STerminate 0; SWait 0 (Some 5); SKill 0]) /\
  (CrunchIntegration.current_process Scenario.crunch_on = None /\
   CrunchIntegration.stop_generation Scenario.crunch_on (Scenario.boot Scenario.quiet)
   = (Ok false, Scenario.crunch_on, Scenario.boot Scenario.quiet)).
Proof.
  assert (Hob : obedient Scenario.stubborn 0) by (repeat split; intros h; exact I).
  split.
  - split; [reflexivity|]. split; [exact Hob|].
    exact (proj1 stop_requests Scenario.crunch_running (Scenario.boot Scenario.stubborn) 0%nat
             eq_refl Hob).
  - split; [reflexivity|].
    exact (proj1 (proj2 stop_requests) Scenario.crunch_on (Scenario.boot Scenario.quiet) eq_refl).
Defined.

(** Outside the theorem: the two [except] clauses when a signal cannot be
    delivered. A failing [terminate] makes the stop return [False]; a
    failing [kill] inside the time-out handler is not caught. *)
Lemma stop_current_signal_refused (p : nat) (os : OS) (e : exn) :
  (env_terminate (env os) (log os) p = Some e -> e <> TimeoutExpired ->
   (stop_current (Some p) os).1 = Ok false) /\
  (env_terminate (env os) (log os) p = None ->
   env_wait (env os) (log os ++ [STerminate p]) p = Raise TimeoutExpired ->
   env_kill (env os) (log os ++ [STerminate p; SWait p (Some 5)]) p = Some e ->
   (stop_current (Some p) os).1 = Raise e).
Proof.
  split.
  - intros Ht Hne. unfold stop_current, terminate. rewrite Ht. cbn. by destruct e.
  - intros Ht Hw Hk. unfold stop_current, terminate, wait, kill. rewrite Ht. cbn.
    rewrite Hw. cbn. rewrite <- app_assoc. cbn. by rewrite Hk.
Qed.

(** ** Starting a generation *)

Lemma strategy_cases (target_info : Info) (strategy : Info) :
  AdvancedCrunchController._analyze_target target_info = Ok strategy ->
  (exists pattern, getitem "type" strategy = Ok (VStr "pattern") /\
                   getitem "pattern" strategy = Ok (VStr pattern)) \/
  (exists charset min_length max_length,
     getitem "type" strategy = Ok (VStr "charset") /\
     getitem "charset" strategy = Ok (VStr charset) /\
     getitem "min_length" strategy = Ok (VInt min_length) /\
     getitem "max_length" strategy = Ok (VInt max_length)).
Proof.
  unfold AdvancedCrunchController._analyze_target.
  destruct (as_str _) as [ssid|e]; [|done]. rewrite bind_ok.
  destruct (matches false _ ssid); [|destruct (matches false _ ssid)]; intros [= <-].
  - left. by eexists.
  - right. by do 3 eexists.
  - right. by do 3 eexists.
Qed.



Example start_with_crunch :
  let '(r, self', os') :=
    AdvancedCrunchController.start_smart_wordlist_generation (17000000002 # 10) (17000000003 # 10)
      Scenario.home_network "/tmp/w.txt" (Scenario.controller Scenario.crunch_on)
      (Scenario.boot Scenario.quiet) in
  r = Ok "crunch_1700000000" /\
  launches (log os')
  = [Argv ["crunch"; "8"; "16"; "abcdefghijklmnopqrstuvwxyz0123456789"; "-o"; "/tmp/w.txt"]] /\
  status_of "crunch_1700000000" self' = Some "running".
Proof. vm_compute. repeat split; reflexivity. Qed.

(** ** Job ids *)

Lemma to_int_not_nil (z : Z) :
  Z.to_int z <> Decimal.Pos Decimal.Nil /\ Z.to_int z <> Decimal.Neg Decimal.Nil.
Proof.
  destruct z as [|p|p]; cbn; split; try discriminate;
    intros [= H]; by apply (DecimalPos.Unsigned.to_uint_nonnil p).
Qed.

Lemma str_int_inj (z z' : Z) : str_int z = str_int z' -> z = z'.
Proof.
  unfold str_int. intros H.
  destruct (to_int_not_nil z) as [Hp Hn]. destruct (to_int_not_nil z') as [Hp' Hn'].
  pose proof (DecimalString.NilZero.isi _ Hp Hn) as E.
  pose proof (DecimalString.NilZero.isi _ Hp' Hn') as E'.
  rewrite H in E. rewrite E in E'. injection E' as E'.
  by rewrite <- (DecimalZ.of_to z), <- (DecimalZ.of_to z'), E'.
Qed.

Lemma uint_no_underscore (d : Decimal.uint) :
  contains_char "_" (DecimalString.NilEmpty.string_of_uint d) = false.
Proof. induction d; cbn; done. Qed.

Lemma str_int_no_underscore (z : Z) : contains_char "_" (str_int z) = false.
Proof.
  unfold str_int, DecimalString.NilZero.string_of_int, DecimalString.NilZero.string_of_uint.
  destruct (Z.to_int z) as [d|d]; destruct d; cbn; try done; apply uint_no_underscore.
Qed.

Lemma contains_char_app (a : ascii) (s t : string) :
  contains_char a (s ++ t) = contains_char a s || contains_char a t.
Proof.
  induction s as [|b s IH]; [done|]. rewrite append_cons. cbn. rewrite IH. by rewrite orb_assoc.
Qed.

Lemma append_nil_l (s : string) : "" ++ s = s.
Proof. reflexivity. Qed.

(** A string is cut in one way only at its last underscore. *)
Lemma split_at_last_underscore (s s' d d' : string) :
  contains_char "_" d = false -> contains_char "_" d' = false ->
  s ++ String "_" d = s' ++ String "_" d' -> s = s' /\ d = d'.
Proof.
  intros Hd Hd'. revert s'. induction s as [|a s IH]; intros [|b s'] H;
    rewrite ?append_nil_l, ?append_cons in H.
  - by injection H.
  - injection H as Hb H. subst. rewrite contains_char_app in Hd. cbn [contains_char] in Hd.
    by rewrite Ascii.eqb_refl, orb_true_r in Hd.
  - injection H as Ha H. subst. rewrite contains_char_app in Hd'. cbn [contains_char] in Hd'.
    by rewrite Ascii.eqb_refl, orb_true_r in Hd'.
  - injection H as <- H. destruct (IH _ H) as [-> ->]. done.
Qed.

Lemma generate_wordlist_eq (min_length max_length : Z) (charset output_file : string)
    (pattern : option string) (opts : CrunchIntegration.options)
    (self : CrunchIntegration.t) (os : OS) :
  CrunchIntegration.generate_wordlist min_length max_length charset output_file pattern opts
    self os
  = if CrunchIntegration.crunch_available self then
      let call := SPopen (Argv (CrunchIntegration.generate_wordlist_cmd min_length max_length
                                  charset output_file pattern opts)) in
      match env_popen (env os) (log os)
              (Argv (CrunchIntegration.generate_wordlist_cmd min_length max_length charset
                       output_file pattern opts)) with
      | Some e => (Raise e, self, record call os)
      | None => (Ok (List.length (log os)),
                 CrunchIntegration.set_current_process (List.length (log os)) self,
                 record call os)
      end
    else (Raise (RuntimeError "Crunch not available"), self, os).
Proof.
  unfold CrunchIntegration.generate_wordlist, Method.bind, read, sys, write, ret, raise, Popen.
  destruct (CrunchIntegration.crunch_available self); cbn; [|done].
  by destruct (env_popen (env os) (log os) _).
Qed.

(** C1, as amended. The id a start call returns is made of the tool name
    (and, for cowpatty, the ssid) and of the clock reading cut to whole
    seconds. So two crunch start calls get different ids exactly when their
    readings lie in different seconds, and two cowpatty start calls exactly
    when their ssids differ or their readings lie in different seconds. A
    crunch start call that succeeds returns that id and writes its job
    under it, whatever the registry held there. *)
Theorem job_id_distinct_iff_second_differs :
  (forall t0 t0',
     AdvancedCrunchController.generation_id t0 <> AdvancedCrunchController.generation_id t0'
     <-> int_float t0 <> int_float t0') /\
  (forall ssid ssid' t0 t0',
     AdvancedCowpattyController.attack_id ssid t0 <> AdvancedCowpattyController.attack_id ssid' t0'
     <-> (ssid <> ssid' \/ int_float t0 <> int_float t0')) /\
  (forall t0 t1 target_info output_file self os id self' os',
     AdvancedCrunchController.start_smart_wordlist_generation t0 t1 target_info output_file self os
     = (Ok id, self', os') ->
     id = AdvancedCrunchController.generation_id t0 /\
     exists job,
       AdvancedCrunchController.active_generations self' !! id = Some job /\
       status job = Some "running" /\ start_time job = t1 /\
       forall other, other <> id ->
         AdvancedCrunchController.active_generations self' !! other
         = AdvancedCrunchController.active_generations self !! other).
Proof.
  split; [|split].
  - intros t0 t0'. unfold AdvancedCrunchController.generation_id. split.
    + intros Hne Heq. apply Hne. by rewrite Heq.
    + intros Hne Heq. apply Hne. apply str_int_inj. by simplify_eq.
  - intros ssid ssid' t0 t0'. unfold AdvancedCowpattyController.attack_id. split.
    + intros Hne. destruct (decide (ssid = ssid')) as [->|]; [|by left].
      right. intros Heq. apply Hne. by rewrite Heq.
    + intros Hne Heq. apply String.app_inj in Heq.
      apply (split_at_last_underscore ssid ssid' (str_int (int_float t0))
               (str_int (int_float t0'))) in Heq as [Hs Heq];
        [|apply str_int_no_underscore|apply str_int_no_underscore].
      apply str_int_inj in Heq. by destruct Hne.
  - intros t0 t1 target_info output_file self os id self' os'.
    destruct self as [[avail cur] reg].
    unfold AdvancedCrunchController.start_smart_wordlist_generation, try_except, Method.bind,
      of_result at 1.
    destruct (AdvancedCrunchController._analyze_target target_info) as [strategy|e] eqn:Hs;
      [|done].
    assert (Hdone : forall p o,
              (Ok (AdvancedCrunchController.generation_id t0),
               AdvancedCrunchController.set_active_generations
                 (<[AdvancedCrunchController.generation_id t0 :=
                      {| process := p; details := [("output_file", VStr output_file)];
                         strategy := Some strategy; start_time := t1;
                         status := Some "running"; last_update := None; progress := None;
                         job_result := None |}]> reg)
                 {| AdvancedCrunchController.crunch := CrunchIntegration.set_current_process p
                      {| CrunchIntegration.crunch_available := true;
                         CrunchIntegration.current_process := cur |};
                    AdvancedCrunchController.active_generations := reg |}, o)
              = (Ok id, self', os') ->
              id = AdvancedCrunchController.generation_id t0 /\
              exists job,
                AdvancedCrunchController.active_generations self' !! id = Some job /\
                status job = Some "running" /\ start_time job = t1 /\
                forall other, other <> id ->
                  AdvancedCrunchController.active_generations self' !! other = reg !! other).
    { intros p o [= <- <- <-]. split; [done|]. eexists. cbn. rewrite lookup_insert_eq.
      repeat split. intros other Hne. by rewrite lookup_insert_ne. }
    destruct (strategy_cases _ _ Hs) as [(pattern & Hty & Hpat) |
                                         (charset & lo & hi & Hty & Hc & Hlo & Hhi)].
    + unfold of_result. rewrite Hty, Hpat. cbn.
      unfold AdvancedCrunchController.on_crunch, on_field,
        CrunchIntegration.generate_pattern_based_wordlist.
      rewrite generate_wordlist_eq. cbn.
      destruct avail; cbn; [|done].
      destruct (env_popen (env os) (log os) _); cbn; [done|]. apply Hdone.
    + unfold of_result. rewrite Hty, Hc, Hlo, Hhi. cbn.
      unfold AdvancedCrunchController.on_crunch, on_field.
      rewrite generate_wordlist_eq. cbn.
      destruct avail; cbn; [|done].
      destruct (env_popen (env os) (log os) _); cbn; [done|]. apply Hdone.
Qed.

Lemma job_id_distinct_iff_second_differs_witness :
  Scenario.first_start = (Ok "crunch_1700000000", Scenario.first_start.1.2, Scenario.first_start.2) /\
  "crunch_1700000000" = AdvancedCrunchController.generation_id (17000000002 # 10).
Proof.
  assert (H : Scenario.first_start
              = (Ok "crunch_1700000000", Scenario.first_start.1.2, Scenario.first_start.2))
    by (vm_compute; reflexivity).
  split; [exact H|].
  exact (proj1 (proj2 (proj2 job_id_distinct_iff_second_differs) _ _ _ _ _ _ _ _ _ H)).
Defined.

(** C1 as stated fails: two start calls in the same clock second
    return the same id, and the second job takes the place of the first in
    the registry, although both processes were launched. *)
Lemma same_second_same_id :
  Scenario.first_start.1.1 = Ok "crunch_1700000000" /\
  Scenario.second_start.1.1 = Ok "crunch_1700000000" /\
  size (AdvancedCrunchController.active_generations Scenario.second_start.1.2) = 1%nat /\
  (details <$> AdvancedCrunchController.active_generations Scenario.second_start.1.2
                 !! "crunch_1700000000")
  = Some [("output_file", VStr "/tmp/second.txt")] /\
  List.length (launches (log Scenario.second_start.2)) = 2%nat.
Proof. vm_compute. repeat split; reflexivity. Qed.

(** ** The status of a job *)

Lemma handle_progress_status (id id' : string) (info : Info) (now : Q)
    (self : AdvancedCrunchController.t) (s : string) :
  status_of id self = Some s ->
  status_of id (AdvancedCrunchController._handle_progress id' info now self) = Some s \/
  (id = id' /\ get_is "status" "completed" info = true /\
   status_of id (AdvancedCrunchController._handle_progress id' info now self) = Some "completed").
Proof.
  unfold status_of, AdvancedCrunchController._handle_progress. intros Hs.
  destruct (AdvancedCrunchController.active_generations self !! id') as [gen_info|] eqn:Hid';
    [|by left].
  cbn [AdvancedCrunchController.active_generations AdvancedCrunchController.set_active_generations].
  destruct (decide (id = id')) as [->|Hne].
  - rewrite Hid' in Hs. cbn in Hs. rewrite lookup_insert_eq. cbn.
    destruct (get_is "status" "completed" info); [by right|].
    left. by destruct (get_is "type" "progress" info).
  - left. by rewrite lookup_insert_ne.
Qed.

Lemma stop_generation_status (id id' : string) (self : AdvancedCrunchController.t) (os : OS)
    (s : string) :
  status_of id self = Some s ->
  status_of id (AdvancedCrunchController.stop_generation id' self os).1.2 = Some s \/
  (id = id' /\ (AdvancedCrunchController.stop_generation id' self os).1.1 = Ok true /\
   status_of id (AdvancedCrunchController.stop_generation id' self os).1.2 = Some "stopped").
Proof.
  unfold status_of. intros Hs. destruct self as [c reg].
  unfold AdvancedCrunchController.stop_generation, Method.bind, read.
  cbn [AdvancedCrunchController.active_generations].
  destruct (reg !! id') as [gen_info|] eqn:Hid'; [|by left].
  unfold AdvancedCrunchController.on_crunch, on_field, CrunchIntegration.stop_generation,
    Method.bind, read, sys.
  cbn [AdvancedCrunchController.crunch AdvancedCrunchController.set_crunch
       AdvancedCrunchController.active_generations].
  destruct (stop_current (CrunchIntegration.current_process c) os) as [[success|e] os'];
    [|by left].
  destruct success; cbn; [|by left].
  rewrite Hid'. cbn.
  destruct (decide (id = id')) as [->|Hne].
  - right. rewrite lookup_insert_eq. done.
  - left. by rewrite lookup_insert_ne.
Qed.

Lemma step_status (st : state) (o : op) (id s : string) :
  status_of id st.1 = Some s ->
  exists s', status_of id (step st o).1 = Some s' /\
             (s' = s \/ s' = "completed" \/ s' = "stopped").
Proof.
  intros Hs. destruct st as [self os]. destruct o as [id' info now | id' now | id']; cbn [step fst snd].
  - destruct (handle_progress_status id id' info now self s Hs) as [H | (_ & _ & H)]; eauto.
  - destruct (handle_progress_status id id' Monitor.completed now self s Hs) as [H | (_ & _ & H)];
      eauto.
  - pose proof (stop_generation_status id id' self os s Hs) as H.
    destruct (AdvancedCrunchController.stop_generation id' self os) as [[r self'] os'].
    cbn in *. destruct H as [H | (_ & _ & H)]; eauto.
Qed.

(** C2, as amended. Under every sequence of progress callbacks, stop
    requests and completion events, a job whose status is terminal keeps a
    terminal status: the status is never set back to running or pending,
    and the job stays in the registry. The status it then holds is the one
    it had, completed or stopped. *)
Theorem terminal_stays_terminal (ops : list op) (st : state) (id s : string) :
  status_of id st.1 = Some s -> s ∈ terminal_statuses ->
  exists s', status_of id (run_ops ops st).1 = Some s' /\
             (s' = s \/ s' = "completed" \/ s' = "stopped") /\
             s' ∈ terminal_statuses.
Proof.
  revert st s. induction ops as [|o ops IH]; intros st s Hs Hterm.
  - exists s. repeat split; [done | by left | done].
  - cbn [run_ops foldl]. destruct (step_status st o id s Hs) as (s1 & Hs1 & Hcase).
    assert (Hterm1 : s1 ∈ terminal_statuses).
    { destruct Hcase as [E | [E | E]]; rewrite E; [done | |];
        unfold terminal_statuses; rewrite !elem_of_cons; auto. }
    destruct (IH (step st o) s1 Hs1 Hterm1) as (s' & Hs' & Hcase' & Hterm').
    exists s'. split; [done|]. split; [|done].
    destruct Hcase as [E | [E | E]]; destruct Hcase' as [E' | [E' | E']];
      rewrite E'; try rewrite E; auto.
Qed.

Lemma terminal_stays_terminal_witness :
  status_of "crunch_1700000000"
    (run_ops [Stop "crunch_1700000000"] (Scenario.first_start.1.2, Scenario.first_start.2)).1
  = Some "stopped" /\
  "stopped" ∈ terminal_statuses /\
  exists s', status_of "crunch_1700000000"
               (run_ops [Completion "crunch_1700000000" (17000000012 # 10)]
                  (run_ops [Stop "crunch_1700000000"]
                     (Scenario.first_start.1.2, Scenario.first_start.2))).1 = Some s' /\
             (s' = "stopped" \/ s' = "completed" \/ s' = "stopped") /\
             s' ∈ terminal_statuses.
Proof.
  assert (H1 : status_of "crunch_1700000000"
                 (run_ops [Stop "crunch_1700000000"]
                    (Scenario.first_start.1.2, Scenario.first_start.2)).1 = Some "stopped")
    by (vm_compute; reflexivity).
  assert (H2 : "stopped" ∈ terminal_statuses)
    by (unfold terminal_statuses; rewrite !elem_of_cons; auto).
  split; [exact H1|]. split; [exact H2|].
  exact (terminal_stays_terminal [Completion "crunch_1700000000" (17000000012 # 10)] _ _ _ H1 H2).
Defined.

(** C2 as stated fails: a job is started, then stopped, and when the
    monitor thread sees the process gone its last callback sets the
    stopped job to completed. A completed job is likewise set to stopped
    by a later stop request. *)
Lemma stopped_job_becomes_completed :
  status_of "crunch_1700000000"
    (run_ops [Stop "crunch_1700000000"] (Scenario.first_start.1.2, Scenario.first_start.2)).1
  = Some "stopped" /\
  status_of "crunch_1700000000"
    (run_ops Scenario.stopped_then_completed (Scenario.first_start.1.2, Scenario.first_start.2)).1
  = Some "completed" /\
  status_of "crunch_1700000000"
    (run_ops (Scenario.stopped_then_completed ++ [Stop "crunch_1700000000"])
       (Scenario.first_start.1.2, Scenario.first_start.2)).1
  = Some "stopped".
Proof. vm_compute. repeat split; reflexivity. Qed.

(** A run from construction to completion: the probe finds crunch, a job is
    started, the monitor reads a banner and the line [42%], and the process
    ends. *)
Example construction_to_completion :
  (AdvancedCrunchController.__init__ (Scenario.boot Scenario.quiet)).1
    = Ok (Scenario.controller Scenario.crunch_on) /\
  Monitor.monitor CrunchIntegration._parse_progress [Monitor.completed]
    ["Crunch will now generate the following amount of data"; " 42%"]
    = Ok [[("type", VStr "progress"); ("percentage", VInt 42)]; Monitor.completed] /\
  (let after := (run_ops [Progress "crunch_1700000000"
                            [("type", VStr "progress"); ("percentage", VInt 42)]
                            (17000000009 # 10);
                          Completion "crunch_1700000000" (17000000021 # 10)]
                   (Scenario.first_start.1.2, Scenario.first_start.2)).1 in
   status_of "crunch_1700000000" after = Some "completed" /\
   (AdvancedCrunchController.get_generation_status "crunch_1700000000" after ≫= progress)
     = Some (VInt 42) /\
   (AdvancedCrunchController.get_generation_status "crunch_1700000000" after ≫= last_update)
     = Some (17000000021 # 10)).
Proof. vm_compute. repeat split; reflexivity. Qed.

(** ** Cleaning the registry *)

Lemma foldl_delete_lookup (ks : list string) (m : gmap string Job) (i : string) :
  foldl (fun m k => delete k m) m ks !! i = if decide (i ∈ ks) then None else m !! i.
Proof.
  revert m. induction ks as [|k ks IH]; intros m; cbn [foldl].
  - by rewrite decide_False by apply not_elem_of_nil.
  - rewrite IH. destruct (decide (i ∈ ks)) as [Hin|Hnin].
    + by rewrite decide_True by (by right).
    + destruct (decide (i = k)) as [->|Hne].
      * rewrite decide_True by left. apply lookup_delete_eq.
      * rewrite decide_False by (by intros [?|?]%elem_of_cons).
        by apply lookup_delete_ne.
Qed.

Lemma sweep_lookup (statuses : list string) (window : Z) (current_time : Q)
    (active : gmap string Job) (id : string) :
  sweep statuses window current_time active !! id
  = match active !! id with
    | Some j => if expired statuses window current_time j then None else Some j
    | None => None
    end.
Proof.
  unfold sweep. rewrite foldl_delete_lookup.
  destruct (active !! id) as [j|] eqn:Hid.
  - destruct (expired statuses window current_time j) eqn:Hexp.
    + rewrite decide_True; [done|].
      apply list_elem_of_In, List.in_map_iff. exists (id, j). split; [done|].
      apply List.filter_In. split; [|done].
      by apply list_elem_of_In, elem_of_map_to_list.
    + rewrite decide_False; [done|].
      intros ([id' j'] & Hfst & [Hin Hexp']%List.filter_In)%list_elem_of_In%List.in_map_iff.
      cbn in Hfst, Hexp'. subst id'.
      apply list_elem_of_In, elem_of_map_to_list in Hin. congruence.
  - rewrite decide_False; [done|].
    intros ([id' j'] & Hfst & [Hin _]%List.filter_In)%list_elem_of_In%List.in_map_iff.
    cbn in Hfst. subst id'.
    apply list_elem_of_In, elem_of_map_to_list in Hin. congruence.
Qed.

Lemma expired_iff (statuses : list string) (window : Z) (current_time : Q) (j : Job) :
  expired statuses window current_time j = true <->
  (exists s, status j = Some s /\ s ∈ statuses) /\
  (inject_Z window < current_time - default 0%Q (last_update j))%Q.
Proof.
  unfold expired, status_in, older_than, Qgtb.
  rewrite andb_true_iff, negb_true_iff. split.
  - intros [Hst Hold]. split.
    + destruct (status j) as [s|]; [|done]. exists s. split; [done|].
      by apply bool_decide_eq_true in Hst.
    + apply Qnot_le_lt. intros Hle. apply Qle_bool_iff in Hle. congruence.
  - intros [(s & -> & Hin) Hlt]. split.
    + by apply bool_decide_eq_true.
    + apply not_true_is_false. intros Hle%Qle_bool_iff. by apply Qlt_not_le in Hlt.
Qed.

(** What a sweep does to a job whose last update is recorded. *)
Lemma sweep_recorded (statuses : list string) (window : Z) (current_time : Q)
    (active : gmap string Job) (id : string) (j : Job) (t : Q) :
  active !! id = Some j -> last_update j = Some t ->
  (sweep statuses window current_time active !! id = None <->
   (exists s, status j = Some s /\ s ∈ statuses) /\ (inject_Z window < current_time - t)%Q) /\
  (sweep statuses window current_time active !! id = None \/
   sweep statuses window current_time active !! id = Some j).
Proof.
  intros Hid Ht. rewrite sweep_lookup, Hid.
  pose proof (expired_iff statuses window current_time j) as Hexp. rewrite Ht in Hexp.
  cbn [default from_option] in Hexp.
  destruct (expired statuses window current_time j).
  - split; [|by left]. split; [intros _; by apply Hexp | done].
  - split; [|by right]. split; [done|]. intros H. apply Hexp in H. discriminate H.
Qed.



Example completed_job_retention :
  let reg t := AdvancedCrunchController.active_generations
                 (AdvancedCrunchController.cleanup_generations t Scenario.one_completed) in
  reg 299%Q !! "crunch_0" = Some (Scenario.job "completed" (Some 0%Q)) /\
  reg 300%Q !! "crunch_0" = Some (Scenario.job "completed" (Some 0%Q)) /\
  reg 301%Q !! "crunch_0" = None.
Proof. vm_compute. repeat split; reflexivity. Qed.


(** ** The vendor MAC spoof *)

Lemma int_str_raises_value_error (base : Z) (s : string) (e : exn) :
  int_str base s = Raise e -> exists msg, e = ValueError msg.
Proof.
  unfold int_str.
  destruct (match strip s with
            | String "-" r => (true, r)
            | String "+" r => (false, r)
            | _ => (false, strip s)
            end) as [neg unsigned].
  destruct (int_digits base false 0 _); [done|]. intros [= <-]. eauto.
Qed.

Lemma generate_random_mac_raises (vendor_prefix : option string) (draw : nat -> nat) (e : exn) :
  MacchangerIntegration.generate_random_mac vendor_prefix draw = Raise e ->
  exists msg, e = ValueError msg.
Proof.
  unfold MacchangerIntegration.generate_random_mac.
  destruct (int_str 16 _) as [b|e'] eqn:Hint; [done|].
  intros [= <-]. by eapply int_str_raises_value_error.
Qed.

(** Two draws from the sixteen hex digits always form a hex byte. *)
Lemma hex_draws_parse (a b : nat) (rest : string) :
  (a < 16)%nat -> (b < 16)%nat ->
  is_ok (int_str 16 (str_take 2
           (String (default "0"%char (String.get a "0123456789abcdef"))
              (String (default "0"%char (String.get b "0123456789abcdef")) rest)))) = true.
Proof.
  intros Ha Hb.
  do 16 (destruct a as [|a]; [do 16 (destruct b as [|b]; [vm_compute; reflexivity|]); lia|]).
  lia.
Qed.

Lemma random_prefix_parses (draw : nat -> nat) :
  is_ok (int_str 16 (str_take 2 (MacchangerIntegration.choices "0123456789abcdef" 6 draw))) = true.
Proof.
  unfold MacchangerIntegration.choices.
  cbn [List.seq List.map string_of_list_ascii].
  change (String.length "0123456789abcdef") with 16%nat.
  apply hex_draws_parse; apply Nat.mod_upper_bound; lia.
Qed.

Lemma spoof_vendor_mac_eq (interface vendor_code : string) (draw : nat -> nat)
    (self : MacchangerIntegration.t) (os : OS) :
  MacchangerIntegration.spoof_vendor_mac interface vendor_code draw self os
  = match MacchangerIntegration.generate_random_mac (Some vendor_code) draw with
    | Ok _ => (Raise Scenario.arity_error, self, os)
    | Raise e => (Raise e, self, os)
    end.
Proof.
  unfold MacchangerIntegration.spoof_vendor_mac, Method.bind, of_result.
  by destruct (MacchangerIntegration.generate_random_mac (Some vendor_code) draw).
Qed.



(** The sibling call with two arguments goes through. *)
Example spoof_random_mac_works :
  (MacchangerIntegration.spoof_random_mac "wlan0" Scenario.zeros Scenario.macchanger_on
     (Scenario.boot Scenario.quiet)).1.1 = Ok (Some "02:00:00:00:00:00") /\
  MacchangerIntegration.generate_random_mac (Some "00:1A:11") Scenario.zeros
  = Ok "02:1A:11:00:00:00".
Proof. vm_compute. split; reflexivity. Qed.


(** With the address of the interface readable, [spoof_specific_vendor]
    backs the address up and then raises; no spoof is recorded. *)
Example spoof_specific_vendor_raises :
  let '(r, self', os') :=
    AdvancedMacSpoofingController.spoof_specific_vendor (17000000002 # 10) (17000000002 # 10)
      "wlan0" "00:1A:11" Scenario.zeros Scenario.spoofer (Scenario.boot Scenario.with_address) in
  r = Raise Scenario.arity_error /\
  AdvancedMacSpoofingController.active_spoofs self' = ∅ /\
  MacchangerIntegration.original_macs (AdvancedMacSpoofingController.macchanger self') !! "wlan0"
  = Some "00:11:22:33:44:55" /\
  launches (log os') = [Argv ["cat"; "/sys/class/net/wlan0/address"]].
Proof. vm_compute. repeat split; reflexivity. Qed.
